(** * InvDepthFactorVariant3: inverse-depth reprojection factors

    A shallow embedding of [gtsam_unstable/slam/InvDepthFactorVariant3.h]
    (classes [InvDepthFactorVariant3a] and [InvDepthFactorVariant3b]) and
    the properties of its residual evaluation, Jacobian slots, equality
    and default construction.

    - [double] is IEEE binary64, embedded as Rocq's primitive [float].
    - The calibration lives behind a [shared_ptr]; it is kept in a store
      ([calibrations]) addressed by locations, as are the matrices that
      [boost::optional<Matrix&>] slots refer to ([matrices]).  [std::cout]
      is the third component of the machine state.
    - A C++ exception is an explicit [Raise]; a failed library assertion
      (Eigen index check, dereference of an empty [shared_ptr]) is [Abort].
    - Types and functions of headers that are not part of this file
      (Pose3, PinholeCamera::project, libm, ...) are fields of the class
      [Collaborators]. *)

From Stdlib Require Import PrimFloat.
From stdpp Require Import gmap strings list.

Abbreviation double := float.

(** ** Value types of the geometry library *)

(** gtsam::Point2, with [operator-] and [vector()]. *)
Record Point2 := mkPoint2 { x2 : double; y2 : double }.

(** gtsam::Point3. *)
Record Point3 := mkPoint3 { x3 : double; y3 : double; z3 : double }.

(** gtsam::Vector: a dynamically sized column of doubles. *)
Abbreviation Vector := (list double).

(** gtsam::LieVector derives from Vector. *)
Abbreviation LieVector := Vector.

(** gtsam::Matrix, kept as the list of its columns. *)
Abbreviation Matrix := (list Vector).

(** gtsam::Key. *)
Abbreviation Key := N.

(** Locations of heap-allocated objects. *)
Abbreviation loc := nat.

(** gtsam::Cal3_S2, built as [Cal3_S2(fx, fy, s, u0, v0)]. *)
Record Cal3_S2 := mkCal3_S2
  { fx : double; fy : double; skew : double; px : double; py : double }.

Definition Point2_sub (p q : Point2) : Point2 :=
  mkPoint2 (x2 p - x2 q)%float (y2 p - y2 q)%float.

Definition vector (p : Point2) : Vector := [x2 p; y2 p].

(** gtsam::ones(n). *)
Definition ones (n : nat) : Vector := replicate n 1%float.

(** Eigen's [Vector * double]. *)
Definition Vector_scale (v : Vector) (s : double) : Vector :=
  map (fun c => (c * s)%float) v.

(** gtsam::Vector_(1, c). *)
Definition Vector_1 (c : double) : Vector := [c].

(** PinholeCamera<Cal3_S2>: a pose together with a copy of the calibration. *)
Record PinholeCamera (Pose3 : Type) := mkPinholeCamera
  { camera_pose : Pose3; camera_K : Cal3_S2 }.
Arguments mkPinholeCamera {Pose3} _ _.
Arguments camera_pose {Pose3} _.
Arguments camera_K {Pose3} _.

(** ** Collaborators

    What the header takes from the rest of the library and from libm. *)
Class Collaborators := {
  Pose3 : Type;
  (** Pose3::transform_from: local point to world point *)
  transform_from : Pose3 -> Point3 -> Point3;
  CheiralityException : Type;
  (** std::exception::what *)
  what : CheiralityException -> string;
  (** PinholeCamera::project: the image point, or a cheirality fault *)
  project : PinholeCamera Pose3 -> Point3 -> Point2 + CheiralityException;
  (** sin and cos of <cmath> *)
  sin : double -> double;
  cos : double -> double;
  DefaultKeyFormatter : Key -> string;
  (** Point2::equals and Cal3_S2::equals, comparison within a tolerance *)
  Point2_equals : Point2 -> Point2 -> double -> bool;
  Cal3_S2_equals : Cal3_S2 -> Cal3_S2 -> double -> bool;
  SharedNoiseModel : Type;
  (** Point2() *)
  Point2_default : Point2;
  (** what the key accessors report on a base that was handed no
      identifiers (left open: the header does not determine it) *)
  Key_default : Key;
  (** the noise model of a default-constructed base factor *)
  SharedNoiseModel_default : SharedNoiseModel;
}.

(** ** Machine state *)

Record Machine := mkMachine {
  calibrations : gmap loc Cal3_S2;
  matrices : gmap loc Matrix;
  cout : string;
}.

Section Semantics.
Context `{C : Collaborators}.

(** *** Expressions and calls *)

Inductive result (A : Type) : Type :=
| Ok (a : A)
| Raise (e : CheiralityException)
| Abort.
Global Arguments Ok {A} _.
Global Arguments Raise {A} _.
Global Arguments Abort {A}.

Definition Expr (A : Type) : Type := Machine -> result A * Machine.

Definition ret {A} (a : A) : Expr A := fun m => (Ok a, m).

Definition bind {A B} (c : Expr A) (k : A -> Expr B) : Expr B :=
  fun m =>
    match c m with
    | (Ok a, m') => k a m'
    | (Raise e, m') => (Raise e, m')
    | (Abort, m') => (Abort, m')
    end.

Definition throw {A} (e : CheiralityException) : Expr A :=
  fun m => (Raise e, m).

Definition abort {A} : Expr A := fun m => (Abort, m).

(** [v(i)] on an Eigen vector: the index is asserted to be in range. *)
Definition coeff (v : Vector) (i : nat) : Expr double :=
  match v !! i with
  | Some c => ret c
  | None => abort
  end.

(** [*p] and [p->] on a [Cal3_S2::shared_ptr]. *)
Definition deref (p : loc) : Expr Cal3_S2 :=
  fun m =>
    match calibrations m !! p with
    | Some K => (Ok K, m)
    | None => (Abort, m)
    end.

(** [new Cal3_S2(...)] *)
Definition new_Cal3_S2 (K : Cal3_S2) : Expr loc :=
  fun m =>
    let l := fresh (dom (calibrations m)) in
    (Ok l, mkMachine (<[l := K]> (calibrations m)) (matrices m) (cout m)).

(** [H = J] through a [Matrix&]. *)
Definition assign (H : loc) (J : Matrix) : Expr unit :=
  fun m =>
    (Ok tt, mkMachine (calibrations m) (<[H := J]> (matrices m)) (cout m)).

(** [std::cout << s] *)
Definition cout_write (s : string) : Expr unit :=
  fun m =>
    (Ok tt, mkMachine (calibrations m) (matrices m) (cout m +:+ s)).

(** A call of [project], with the fault as an exception. *)
Definition camera_project (camera : PinholeCamera Pose3) (pw : Point3)
  : Expr Point2 :=
  match project camera pw with
  | inl p => ret p
  | inr e => throw e
  end.

Fixpoint mapE {A B} (f : A -> Expr B) (l : list A) : Expr (list B) :=
  match l with
  | [] => ret []
  | a :: l' => bind (f a) (fun b => bind (mapE f l') (fun bs => ret (b :: bs)))
  end.

(** *** Statements *)

Inductive completion (R : Type) : Type :=
| Next
| Returned (r : R)
| Thrown (e : CheiralityException)
| Aborted.
Global Arguments Next {R}.
Global Arguments Returned {R} _.
Global Arguments Thrown {R} _.
Global Arguments Aborted {R}.

Definition Stmt (R : Type) : Type := Machine -> completion R * Machine.

Definition skip {R} : Stmt R := fun m => (Next, m).

(** [T x = e; s] *)
Definition decl {A R} (e : Expr A) (s : A -> Stmt R) : Stmt R :=
  fun m =>
    match e m with
    | (Ok a, m') => s a m'
    | (Raise x, m') => (Thrown x, m')
    | (Abort, m') => (Aborted, m')
    end.

(** [e;] *)
Definition do_ {R} (e : Expr unit) : Stmt R := decl e (fun _ => skip).

(** [s1 s2] *)
Definition sequence {R} (s1 s2 : Stmt R) : Stmt R :=
  fun m =>
    match s1 m with
    | (Next, m') => s2 m'
    | other => other
    end.

(** [return e;] *)
Definition return_ {R} (e : Expr R) : Stmt R :=
  fun m =>
    match e m with
    | (Ok r, m') => (Returned r, m')
    | (Raise x, m') => (Thrown x, m')
    | (Abort, m') => (Aborted, m')
    end.

(** [try { s } catch (CheiralityException& e) { handler }] *)
Definition try_catch {R} (s : Stmt R) (handler : CheiralityException -> Stmt R)
  : Stmt R :=
  fun m =>
    match s m with
    | (Thrown e, m') => handler e m'
    | other => other
    end.

(** [if (H) { s }] on an optional reference. *)
Definition if_some {A R} (H : option A) (s : A -> Stmt R) : Stmt R :=
  match H with
  | Some h => s h
  | None => skip
  end.

(** A function body run as a call.  Control that reaches the closing
    brace of a value-returning function has no defined result. *)
Definition function {R} (body : Stmt R) : Expr R :=
  fun m =>
    match body m with
    | (Returned r, m') => (Ok r, m')
    | (Thrown e, m') => (Raise e, m')
    | (Next, m') => (Abort, m')
    | (Aborted, m') => (Abort, m')
    end.

(** The body of a [void] function run as a call: reaching the closing
    brace returns. *)
Definition procedure (body : Stmt unit) : Expr unit :=
  fun m =>
    match body m with
    | (Returned r, m') => (Ok r, m')
    | (Next, m') => (Ok tt, m')
    | (Thrown e, m') => (Raise e, m')
    | (Aborted, m') => (Abort, m')
    end.

End Semantics.

Declare Scope cxx_scope.
Delimit Scope cxx_scope with cxx.
Notation "'let*' x ':=' e 'in' k" := (bind e (fun x => k))
  (at level 10, x name, e at level 100, k at level 200, only parsing)
  : cxx_scope.
Notation "'var' x ':=' e ; s" := (decl e (fun x => s))
  (at level 10, x name, e at level 100, s at level 200, only parsing)
  : cxx_scope.
Notation "s1 ;;; s2" := (sequence s1 s2)
  (at level 100, s2 at level 200, only parsing) : cxx_scope.

(** ** The numerical differentiation utility *)

(** Modelled from the spec: base/numericalDerivative.h is not among the
    sources.  Section 6 describes the utility as one that, "given a
    function of one variable and an operating point, returns the Jacobian
    matrix by perturbing along each local degree of freedom and
    differencing".  [perturbed x] lists the points at which the function is
    evaluated (retractions of a pose, raw coordinate offsets of a
    landmark); [differencing x] turns the values found there into the
    matrix.  Step size and difference scheme are left to the instance. *)
Class Differentiable (X : Type) := {
  perturbed : X -> list X;
  differencing : X -> list Vector -> Matrix;
}.

Section Differentiation.
Context `{C : Collaborators}.
Local Open Scope cxx_scope.

Definition numericalDerivative11 {X} `{Differentiable X}
    (h : X -> Expr Vector) (x : X) : Expr Matrix :=
  let* values := mapE h (perturbed x) in
  ret (differencing x values).

End Differentiation.

(** ** The factor base classes *)

(** Modelled from the spec: nonlinear/NonlinearFactor.h is not among the
    sources.  Section 4.4: the factor shell "binds variable identifiers,
    measurement, and calibration at construction", and the base part holds
    the identifiers and the noise model handed to [Base(model, keys...)]. *)
Module NoiseModelFactor2.
Section Fields.
Context `{C : Collaborators}.

Record t := mk { noiseModel_ : SharedNoiseModel; key1 : Key; key2 : Key }.

Definition keys (b : t) : list Key := [key1 b; key2 b].

(** [Base()].  The default constructors of the factors hand no
    identifiers to their base.  What [key1()] and [key2()] report on such
    a base is not determined by this header; it is left open as the
    parameter [Key_default], and the statements about default
    construction do not read it. *)
Definition default : t := mk SharedNoiseModel_default Key_default Key_default.
End Fields.
End NoiseModelFactor2.

Module NoiseModelFactor3.
Section Fields.
Context `{C : Collaborators}.

Record t := mk
  { noiseModel_ : SharedNoiseModel; key1 : Key; key2 : Key; key3 : Key }.

Definition keys (b : t) : list Key := [key1 b; key2 b; key3 b].

(** [Base()], as for [NoiseModelFactor2]: no identifiers are handed over,
    and what the accessors report is left open as [Key_default]. *)
Definition default : t :=
  mk SharedNoiseModel_default Key_default Key_default Key_default.
End Fields.
End NoiseModelFactor3.

(** What [print] takes from the rest of the library: the text that
    [Base::print(s, keyFormatter)] and [Point2::print(s)] send to
    [std::cout]. *)
Class Printers `{C : Collaborators} := {
  NoiseModelFactor2_print :
    NoiseModelFactor2.t -> string -> (Key -> string) -> string;
  NoiseModelFactor3_print :
    NoiseModelFactor3.t -> string -> (Key -> string) -> string;
  Point2_print : Point2 -> string -> string;
}.

(** The members both classes declare on top of their base: the measurement
    and the shared pointer to the calibration. *)
Record Factor (Base : Type) := mkFactor
  { base : Base; measured_ : Point2; K_ : loc }.
Arguments mkFactor {Base} _ _ _.
Arguments base {Base} _.
Arguments measured_ {Base} _.
Arguments K_ {Base} _.

Section Polymorphism.
Context `{C : Collaborators}.

(** What a [const NonlinearFactor&] may refer to. *)
Inductive NonlinearFactor : Type :=
| Variant3a (f : Factor NoiseModelFactor2.t)
| Variant3b (f : Factor NoiseModelFactor3.t)
| OtherFactor (ks : list Key).

Definition NonlinearFactor_keys (p : NonlinearFactor) : list Key :=
  match p with
  | Variant3a f => NoiseModelFactor2.keys (base f)
  | Variant3b f => NoiseModelFactor3.keys (base f)
  | OtherFactor ks => ks
  end.

(** Modelled from the spec: [Base::equals] is not among the sources.
    Section 4.4 describes equality as the "structural comparison of
    identifiers, measurement, and calibration within a numeric
    tolerance"; the base part contributes the identifiers. *)
Definition Base_equals (ks : list Key) (p : NonlinearFactor) (tol : double)
  : bool :=
  bool_decide (ks = NonlinearFactor_keys p).

(** [a && b] with [b] evaluated only when [a] holds. *)
Definition and_then (a b : Expr bool) : Expr bool :=
  bind a (fun x => if x then b else ret false).

End Polymorphism.

Notation "a &&& b" := (and_then a b)
  (at level 40, left associativity, only parsing) : cxx_scope.

(** [std::endl] *)
Definition endl : string := String (Ascii.ascii_of_nat 10) "".

(** ** InvDepthFactorVariant3a: one pose and a landmark *)

Module InvDepthFactorVariant3a.
Section Methods.
Context `{C : Collaborators}.
Context {DP : Differentiable Pose3} {DL : Differentiable LieVector}.
Local Open Scope cxx_scope.

Definition Base := NoiseModelFactor2.t.
Definition This := Factor Base.

Definition key1 (this : This) : Key := NoiseModelFactor2.key1 (base this).
Definition key2 (this : This) : Key := NoiseModelFactor2.key2 (base this).

(** [InvDepthFactorVariant3a()] *)
Definition default_constructor : Expr This :=
  let* K := new_Cal3_S2 (mkCal3_S2 444 555 666 777 888) in
  ret (mkFactor NoiseModelFactor2.default Point2_default K).

(** [InvDepthFactorVariant3a(poseKey, landmarkKey, measured, K, model)] *)
Definition constructor (poseKey landmarkKey : Key) (measured : Point2)
    (K : loc) (model : SharedNoiseModel) : This :=
  mkFactor (NoiseModelFactor2.mk model poseKey landmarkKey) measured K.

(** [dynamic_cast<const This*>(&p)] *)
Definition dynamic_cast (p : NonlinearFactor) : option This :=
  match p with
  | Variant3a e => Some e
  | _ => None
  end.

Definition equals (this : This) (p : NonlinearFactor) (tol : double)
  : Expr bool :=
  function (
    match dynamic_cast p with
    | None => return_ (ret false)
    | Some e =>
        return_ (ret (Base_equals (NoiseModelFactor2.keys (base this)) p tol)
                 &&& ret (Point2_equals (measured_ this) (measured_ e) tol)
                 &&& (let* Kthis := deref (K_ this) in
                      let* Ke := deref (K_ e) in
                      ret (Cal3_S2_equals Kthis Ke tol)))
    end).

Definition try_block (this : This) (pose : Pose3) (landmark : LieVector)
  : Stmt Vector :=
  var theta := coeff landmark 0 ;
  var phi := coeff landmark 1 ;
  var rho := coeff landmark 2 ;
  let pose_P_landmark :=
    mkPoint3 (cos phi * sin theta / rho)%float
             (sin phi / rho)%float
             (cos phi * cos theta / rho)%float in
  let world_P_landmark := transform_from pose pose_P_landmark in
  var K := deref (K_ this) ;
  let camera := mkPinholeCamera pose K in
  var projected := camera_project camera world_P_landmark ;
  let reprojectionError := Point2_sub projected (measured_ this) in
  return_ (ret (vector reprojectionError)).

(** The text sent to [std::cout] by the handler. *)
Definition diagnostic (this : This) (e : CheiralityException) : string :=
  what e
  +:+ ": Inverse Depth Landmark [" +:+ DefaultKeyFormatter (key1 this)
  +:+ "," +:+ DefaultKeyFormatter (key2 this) +:+ "]"
  +:+ " moved behind camera [" +:+ DefaultKeyFormatter (key1 this) +:+ "]"
  +:+ endl.

Definition catch_block (this : This) (e : CheiralityException) : Stmt Vector :=
  do_ (cout_write (diagnostic this e)) ;;;
  return_ (let* K := deref (K_ this) in
           ret (Vector_scale (Vector_scale (ones 2) 2%float) (fx K))).

Definition inverseDepthError (this : This) (pose : Pose3)
    (landmark : LieVector) : Expr Vector :=
  function (
    try_catch (try_block this pose landmark) (catch_block this) ;;;
    return_ (ret (Vector_1 0%float))).

Definition evaluateError (this : This) (pose : Pose3) (landmark : LieVector)
    (H1 H2 : option loc) : Expr Vector :=
  function (
    if_some H1 (fun H1 =>
      do_ (let* J := numericalDerivative11
                  (fun x => inverseDepthError this x landmark) pose in
           assign H1 J)) ;;;
    if_some H2 (fun H2 =>
      do_ (let* J := numericalDerivative11
                  (fun x => inverseDepthError this pose x) landmark in
           assign H2 J)) ;;;
    return_ (inverseDepthError this pose landmark)).

Definition imagePoint (this : This) : Point2 := measured_ this.

Definition calibration (this : This) : loc := K_ this.

Context {P : Printers}.

Definition print (this : This) (s : string) (keyFormatter : Key -> string)
  : Expr unit :=
  procedure (
    do_ (cout_write (NoiseModelFactor2_print (base this) s keyFormatter)) ;;;
    do_ (cout_write (Point2_print (measured_ this) (s +:+ ".z")))).

(** [print()] with its default arguments. *)
Definition print_default (this : This) : Expr unit :=
  print this "InvDepthFactorVariant3a" DefaultKeyFormatter.

End Methods.
End InvDepthFactorVariant3a.

(** ** InvDepthFactorVariant3b: two poses and a landmark *)

Module InvDepthFactorVariant3b.
Section Methods.
Context `{C : Collaborators}.
Context {DP : Differentiable Pose3} {DL : Differentiable LieVector}.
Local Open Scope cxx_scope.

Definition Base := NoiseModelFactor3.t.
Definition This := Factor Base.

Definition key1 (this : This) : Key := NoiseModelFactor3.key1 (base this).
Definition key2 (this : This) : Key := NoiseModelFactor3.key2 (base this).
Definition key3 (this : This) : Key := NoiseModelFactor3.key3 (base this).

(** [InvDepthFactorVariant3b()] *)
Definition default_constructor : Expr This :=
  let* K := new_Cal3_S2 (mkCal3_S2 444 555 666 777 888) in
  ret (mkFactor NoiseModelFactor3.default Point2_default K).

(** [InvDepthFactorVariant3b(poseKey1, poseKey2, landmarkKey, measured, K, model)] *)
Definition constructor (poseKey1 poseKey2 landmarkKey : Key)
    (measured : Point2) (K : loc) (model : SharedNoiseModel) : This :=
  mkFactor (NoiseModelFactor3.mk model poseKey1 poseKey2 landmarkKey)
           measured K.

(** [dynamic_cast<const This*>(&p)] *)
Definition dynamic_cast (p : NonlinearFactor) : option This :=
  match p with
  | Variant3b e => Some e
  | _ => None
  end.

Definition equals (this : This) (p : NonlinearFactor) (tol : double)
  : Expr bool :=
  function (
    match dynamic_cast p with
    | None => return_ (ret false)
    | Some e =>
        return_ (ret (Base_equals (NoiseModelFactor3.keys (base this)) p tol)
                 &&& ret (Point2_equals (measured_ this) (measured_ e) tol)
                 &&& (let* Kthis := deref (K_ this) in
                      let* Ke := deref (K_ e) in
                      ret (Cal3_S2_equals Kthis Ke tol)))
    end).

Definition try_block (this : This) (pose1 pose2 : Pose3)
    (landmark : LieVector) : Stmt Vector :=
  var theta := coeff landmark 0 ;
  var phi := coeff landmark 1 ;
  var rho := coeff landmark 2 ;
  let pose1_P_landmark :=
    mkPoint3 (cos phi * sin theta / rho)%float
             (sin phi / rho)%float
             (cos phi * cos theta / rho)%float in
  let world_P_landmark := transform_from pose1 pose1_P_landmark in
  var K := deref (K_ this) ;
  let camera := mkPinholeCamera pose2 K in
  var projected := camera_project camera world_P_landmark ;
  let reprojectionError := Point2_sub projected (measured_ this) in
  return_ (ret (vector reprojectionError)).

(** The text sent to [std::cout] by the handler. *)
Definition diagnostic (this : This) (e : CheiralityException) : string :=
  what e
  +:+ ": Inverse Depth Landmark [" +:+ DefaultKeyFormatter (key1 this)
  +:+ "," +:+ DefaultKeyFormatter (key3 this) +:+ "]"
  +:+ " moved behind camera " +:+ DefaultKeyFormatter (key2 this)
  +:+ endl.

Definition catch_block (this : This) (e : CheiralityException) : Stmt Vector :=
  do_ (cout_write (diagnostic this e)) ;;;
  return_ (let* K := deref (K_ this) in
           ret (Vector_scale (Vector_scale (ones 2) 2%float) (fx K))).

Definition inverseDepthError (this : This) (pose1 pose2 : Pose3)
    (landmark : LieVector) : Expr Vector :=
  function (
    try_catch (try_block this pose1 pose2 landmark) (catch_block this) ;;;
    return_ (ret (Vector_1 0%float))).

Definition evaluateError (this : This) (pose1 pose2 : Pose3)
    (landmark : LieVector) (H1 H2 H3 : option loc) : Expr Vector :=
  function (
    if_some H1 (fun H1 =>
      do_ (let* J := numericalDerivative11
                  (fun x => inverseDepthError this x pose2 landmark) pose1 in
           assign H1 J)) ;;;
    if_some H2 (fun H2 =>
      do_ (let* J := numericalDerivative11
                  (fun x => inverseDepthError this pose1 x landmark) pose2 in
           assign H2 J)) ;;;
    if_some H3 (fun H3 =>
      do_ (let* J := numericalDerivative11
                  (fun x => inverseDepthError this pose1 pose2 x) landmark in
           assign H3 J)) ;;;
    return_ (inverseDepthError this pose1 pose2 landmark)).

Definition imagePoint (this : This) : Point2 := measured_ this.

Definition calibration (this : This) : loc := K_ this.

Context {P : Printers}.

Definition print (this : This) (s : string) (keyFormatter : Key -> string)
  : Expr unit :=
  procedure (
    do_ (cout_write (NoiseModelFactor3_print (base this) s keyFormatter)) ;;;
    do_ (cout_write (Point2_print (measured_ this) (s +:+ ".z")))).

(** [print()] with its default arguments. *)
Definition print_default (this : This) : Expr unit :=
  print this "InvDepthFactorVariant3" DefaultKeyFormatter.

End Methods.
End InvDepthFactorVariant3b.

(** ** A concrete set of collaborators

    Used to run the factors on the scenarios of section 8 of the
    specification.  Poses are a rotation matrix and a translation; the
    camera follows the pinhole model and reports a cheirality fault for a
    non-positive depth; [sin_series] and [cos_series] stand in for libm
    (they are exact at 0, which is all the scenarios use); differentiation
    is by central differences with step [delta]. *)
Module Scenario.
Local Open Scope float_scope.

Record Rot3 := mkRot3 {
  r11 : double; r12 : double; r13 : double;
  r21 : double; r22 : double; r23 : double;
  r31 : double; r32 : double; r33 : double }.

Record Pose3 := mkPose3 { R_ : Rot3; t_ : Point3 }.

Definition rotate (R : Rot3) (p : Point3) : Point3 :=
  mkPoint3 (r11 R * x3 p + r12 R * y3 p + r13 R * z3 p)
           (r21 R * x3 p + r22 R * y3 p + r23 R * z3 p)
           (r31 R * x3 p + r32 R * y3 p + r33 R * z3 p).

Definition unrotate (R : Rot3) (p : Point3) : Point3 :=
  mkPoint3 (r11 R * x3 p + r21 R * y3 p + r31 R * z3 p)
           (r12 R * x3 p + r22 R * y3 p + r32 R * z3 p)
           (r13 R * x3 p + r23 R * y3 p + r33 R * z3 p).

Definition Point3_add (p q : Point3) : Point3 :=
  mkPoint3 (x3 p + x3 q) (y3 p + y3 q) (z3 p + z3 q).

Definition Point3_sub (p q : Point3) : Point3 :=
  mkPoint3 (x3 p - x3 q) (y3 p - y3 q) (z3 p - z3 q).

Definition transform_from (pose : Pose3) (p : Point3) : Point3 :=
  Point3_add (rotate (R_ pose) p) (t_ pose).

Definition transform_to (pose : Pose3) (p : Point3) : Point3 :=
  unrotate (R_ pose) (Point3_sub p (t_ pose)).

Definition uncalibrate (K : Cal3_S2) (p : Point2) : Point2 :=
  mkPoint2 (fx K * x2 p + skew K * y2 p + px K) (fy K * y2 p + py K).

(** Modelled from the spec: geometry/PinholeCamera.h is not among the
    sources.  Section 6: [project] "fails with a cheirality fault when
    the point is behind the camera", that is for a "non-positive depth
    in the camera frame". *)
Definition project (camera : PinholeCamera Pose3) (pw : Point3)
  : Point2 + unit :=
  let q := transform_to (camera_pose camera) pw in
  if z3 q <=? 0 then inr tt
  else inl (uncalibrate (camera_K camera) (mkPoint2 (x3 q / z3 q) (y3 q / z3 q))).

Definition sin_series (x : double) : double :=
  x - x * x * x / 6 + x * x * x * x * x / 120.

Definition cos_series (x : double) : double :=
  1 - x * x / 2 + x * x * x * x / 24.

Definition Key_format (k : Key) : string :=
  String (Ascii.ascii_of_N (48 + k)) "".

Definition Point2_equals (p q : Point2) (tol : double) : bool :=
  (abs (x2 p - x2 q) <? tol) && (abs (y2 p - y2 q) <? tol).

Definition Cal3_S2_equals (K K' : Cal3_S2) (tol : double) : bool :=
  negb (tol <? abs (fx K - fx K')) && negb (tol <? abs (fy K - fy K'))
  && negb (tol <? abs (skew K - skew K')) && negb (tol <? abs (px K - px K'))
  && negb (tol <? abs (py K - py K')).

Definition collaborators : Collaborators :=
  Build_Collaborators
    Pose3 transform_from
    unit (fun _ => "Cheirality Exception"%string)
    project sin_series cos_series Key_format
    Point2_equals Cal3_S2_equals
    (option double) (mkPoint2 0 0) 0%N None.

(** *** Central differences *)

(** 1e-5, rounded to binary64 *)
Definition delta : double := 0x1.4f8b588e368f1p-17.

Definition Vector_sub (u v : Vector) : Vector :=
  zip_with PrimFloat.sub u v.

(** The unit step [d] along coordinate [j] of an [n]-vector. *)
Definition step (n j : nat) (d : double) : Vector :=
  <[j := d]> (replicate n 0).

Fixpoint central (values : list Vector) : Matrix :=
  match values with
  | hxplus :: hxmin :: rest =>
      Vector_scale (Vector_sub hxplus hxmin) (1 / (2 * delta)) :: central rest
  | _ => []
  end.

Definition LieVector_retract (x : LieVector) (d : Vector) : LieVector :=
  zip_with PrimFloat.add x d.

Definition Pose3_retract (x : Pose3) (d : Vector) : Pose3 :=
  match d with
  | [wx; wy; wz; vx; vy; vz] =>
      let R := R_ x in
      let W := mkRot3 1 (- wz) wy wz 1 (- wx) (- wy) wx 1 in
      let col (c : Point3) := rotate R c in
      let c1 := col (mkPoint3 (r11 W) (r21 W) (r31 W)) in
      let c2 := col (mkPoint3 (r12 W) (r22 W) (r32 W)) in
      let c3 := col (mkPoint3 (r13 W) (r23 W) (r33 W)) in
      mkPose3 (mkRot3 (x3 c1) (x3 c2) (x3 c3)
                      (y3 c1) (y3 c2) (y3 c3)
                      (z3 c1) (z3 c2) (z3 c3))
              (Point3_add (t_ x) (rotate R (mkPoint3 vx vy vz)))
  | _ => x
  end.

Definition around {X} (retract : X -> Vector -> X) (n : nat) (x : X) : list X :=
  flat_map (fun j => [retract x (step n j delta); retract x (step n j (- delta))])
           (seq 0 n).

Definition differentiable_Pose3 : Differentiable Pose3 := {|
  perturbed := around Pose3_retract 6;
  differencing := fun _ => central;
|}.

Definition differentiable_LieVector : Differentiable LieVector := {|
  perturbed := fun x => around LieVector_retract (length x) x;
  differencing := fun _ => central;
|}.

Definition identity : Pose3 :=
  mkPose3 (mkRot3 1 0 0 0 1 0 0 0 1) (mkPoint3 0 0 0).

Definition translation (x y z : double) : Pose3 :=
  mkPose3 (mkRot3 1 0 0 0 1 0 0 0 1) (mkPoint3 x y z).

(** A store holding the calibration (fx=1, fy=1, s=0, u0=0, v0=0) at
    location 0 and two empty matrices at locations 0 and 1. *)
Definition machine : Machine :=
  mkMachine {[ 0%nat := mkCal3_S2 1 1 0 0 0 ]}
            {[ 0%nat := []; 1%nat := [] ]} "".

Definition factor3a : InvDepthFactorVariant3a.This (C := collaborators) :=
  InvDepthFactorVariant3a.constructor (C := collaborators)
    1%N 2%N (mkPoint2 0 0) 0%nat None.

Definition factor3b : InvDepthFactorVariant3b.This (C := collaborators) :=
  InvDepthFactorVariant3b.constructor (C := collaborators)
    1%N 2%N 3%N (mkPoint2 0 0) 0%nat None.

End Scenario.

(** ** Notions used in the statements *)

Section Notions.
Context `{C : Collaborators}.

(** Section 4.1: the landmark in the frame of its reference pose. *)
Definition local_point (theta phi rho : double) : Point3 :=
  mkPoint3 (cos phi * sin theta / rho)%float
           (sin phi / rho)%float
           (cos phi * cos theta / rho)%float.

(** Section 4.1: the coordinate transform, local point to world point. *)
Definition coordinate_transform (pose : Pose3) (theta phi rho : double)
  : Point3 :=
  transform_from pose (local_point theta phi rho).

(** Section 4.2: projection minus measurement. *)
Definition residual (projected measured : Point2) : Vector :=
  [(x2 projected - x2 measured)%float; (y2 projected - y2 measured)%float].

(** Section 4.2: the fixed residual of the degenerate case. *)
Definition sentinel (K : Cal3_S2) : Vector :=
  [(2 * fx K)%float; (2 * fx K)%float].

(** The machine after [s] has been sent to [std::cout]. *)
Definition printed (m : Machine) (s : string) : Machine :=
  mkMachine (calibrations m) (matrices m) (cout m +:+ s).

(** Section 4.2: what the evaluator makes of the outcome of the
    projection. *)
Definition residual_of_projection (measured : Point2) (K : Cal3_S2)
    (diag : CheiralityException -> string)
    (projection : Point2 + CheiralityException) (m : Machine)
  : result Vector * Machine :=
  match projection with
  | inl p => (Ok (residual p measured), m)
  | inr e => (Ok (sentinel K), printed m (diag e))
  end.

(** Two machine states with the same calibrations and matrices. *)
Definition same_store (m m' : Machine) : Prop :=
  calibrations m' = calibrations m /\ matrices m' = matrices m.

(** An expression that reads nothing but the calibrations and writes
    nothing but [std::cout]. *)
Definition observer {A} (e : Expr A) : Prop :=
  (forall m, same_store m (snd (e m)))
  /\ (forall m1 m2, calibrations m1 = calibrations m2 ->
                    fst (e m1) = fst (e m2)).

(** One [if (H) { *H = numericalDerivative11(...); }] step. *)
Definition slot_step (H : option loc) (jacobian : Expr Matrix) : Expr unit :=
  match H with
  | Some h => bind jacobian (assign h)
  | None => ret tt
  end.


(** Well-formed input of an evaluation: a landmark with its three
    coordinates and a calibration pointer that refers to a calibration. *)
Definition evaluable {Base} (this : Factor Base) (landmark : LieVector)
    (m : Machine) : Prop :=
  3 <= length landmark /\ is_Some (calibrations m !! K_ this).

(** An expression from which no exception escapes. *)
Definition never_raises {A} (e : Expr A) : Prop :=
  forall m x, fst (e m) <> Raise x.

(** The output of [m'] is the output of [m] with something appended. *)
Definition extends_cout (m m' : Machine) : Prop :=
  exists s, cout m' = cout m +:+ s.

(** The machine [m'] differs from [m] at most in [std::cout] and in the
    matrices the slots [slots] refer to. *)
Definition writes_only (slots : list (option loc)) (m m' : Machine) : Prop :=
  calibrations m' = calibrations m
  /\ forall l, Some l ∉ slots -> matrices m' !! l = matrices m !! l.

End Notions.

(** ** Laws of the evaluation monad *)

Section Laws.
Context `{C : Collaborators}.

Lemma bind_Ok_inv {A B} (e : Expr A) (k : A -> Expr B) m b m' :
  bind e k m = (Ok b, m') ->
  exists a m1, e m = (Ok a, m1) /\ k a m1 = (Ok b, m').
Proof.
  unfold bind. destruct (e m) as [[a | x | ] m1]; intros Heq;
    [ exists a, m1; auto | discriminate | discriminate ].
Qed.

Lemma bind_Ok {A B} (e : Expr A) (k : A -> Expr B) m a m1 :
  e m = (Ok a, m1) -> bind e k m = k a m1.
Proof. unfold bind. intros ->. reflexivity. Qed.

Lemma function_return {R} (e : Expr R) m : function (return_ e) m = e m.
Proof.
  unfold function, return_. destruct (e m) as [[r | x | ] m1]; reflexivity.
Qed.

Lemma same_store_refl m : same_store m m.
Proof. split; reflexivity. Qed.

Lemma same_store_trans m1 m2 m3 :
  same_store m1 m2 -> same_store m2 m3 -> same_store m1 m3.
Proof. intros [H1 H2] [H3 H4]. split; congruence. Qed.

Lemma same_store_printed m s : same_store m (printed m s).
Proof. split; reflexivity. Qed.

(** *** Observers are closed under the monad operations *)

Lemma observer_ret {A} (a : A) : observer (ret a).
Proof. split; intros; [apply same_store_refl | reflexivity]. Qed.

Lemma observer_bind {A B} (e : Expr A) (k : A -> Expr B) :
  observer e -> (forall a, observer (k a)) -> observer (bind e k).
Proof.
  intros [He1 He2] Hk. split.
  - intros m. unfold bind. specialize (He1 m).
    destruct (e m) as [[a | x | ] m1]; simpl in *; auto.
    eapply same_store_trans; [exact He1 | apply (Hk a)].
  - intros m1 m2 Hm. unfold bind.
    pose proof (He2 m1 m2 Hm) as Hfst.
    pose proof (He1 m1) as [Hc1 _]. pose proof (He1 m2) as [Hc2 _].
    destruct (e m1) as [r1 n1], (e m2) as [r2 n2]; simpl in *. subst r2.
    destruct r1 as [a | x | ]; simpl; auto.
    apply (Hk a). congruence.
Qed.

Lemma observer_mapE {A B} (f : A -> Expr B) (l : list A) :
  (forall a, observer (f a)) -> observer (mapE f l).
Proof.
  intros Hf. induction l as [ | a l IH]; simpl.
  - apply observer_ret.
  - apply observer_bind; [apply Hf | intros b].
    apply observer_bind; [exact IH | intros bs; apply observer_ret].
Qed.

Lemma observer_numericalDerivative11 {X} `{Differentiable X}
    (h : X -> Expr Vector) (x : X) :
  (forall y, observer (h y)) -> observer (numericalDerivative11 h x).
Proof.
  intros Hh. unfold numericalDerivative11.
  apply observer_bind; [apply observer_mapE, Hh | intros; apply observer_ret].
Qed.

(** *** One Jacobian step *)

Lemma slot_step_Ok (H : option loc) (e : Expr Matrix) m m' :
  observer e ->
  slot_step H e m = (Ok tt, m') ->
  calibrations m' = calibrations m
  /\ match H with
     | None => matrices m' = matrices m
     | Some h => exists J, fst (e m) = Ok J
                           /\ matrices m' = <[h := J]> (matrices m)
     end.
Proof.
  intros [He _] Hstep. destruct H as [h | ]; simpl in Hstep.
  - apply bind_Ok_inv in Hstep as (J & m1 & HJ & Hassign).
    specialize (He m). rewrite HJ in He. destruct He as [Hc Hm]. simpl in *.
    unfold assign in Hassign. injection Hassign as <-. simpl.
    split; [exact Hc | ]. exists J. rewrite HJ, Hm. auto.
  - injection Hstep as <-. auto.
Qed.

End Laws.

(** ** The residual evaluators, run *)

Section Evaluators.
Context `{C : Collaborators}.

Ltac run_body landmark m this :=
  destruct (landmark !! 0) as [theta | ]; [ | reflexivity];
  destruct (landmark !! 1) as [phi | ]; [ | reflexivity];
  destruct (landmark !! 2) as [rho | ]; [ | reflexivity];
  destruct (calibrations m !! K_ this) as [K | ] eqn:HK; [ | reflexivity];
  match goal with
  | |- context [project ?c ?p] => destruct (project c p) as [p2 | e]
  end;
  simpl; rewrite ?HK; reflexivity.

Lemma inverseDepthError3a_run (this : InvDepthFactorVariant3a.This)
    (pose : Pose3) (landmark : LieVector) (m : Machine) :
  InvDepthFactorVariant3a.inverseDepthError this pose landmark m =
  match landmark !! 0, landmark !! 1, landmark !! 2,
        calibrations m !! K_ this with
  | Some theta, Some phi, Some rho, Some K =>
      residual_of_projection (measured_ this) K
        (InvDepthFactorVariant3a.diagnostic this)
        (project (mkPinholeCamera pose K)
                 (coordinate_transform pose theta phi rho)) m
  | _, _, _, _ => (Abort, m)
  end.
Proof.
  unfold InvDepthFactorVariant3a.inverseDepthError,
    InvDepthFactorVariant3a.try_block, InvDepthFactorVariant3a.catch_block,
    function, sequence, try_catch, do_, decl, return_, skip, coeff, deref,
    camera_project, cout_write, bind, ret, abort, throw,
    coordinate_transform, local_point, residual_of_projection.
  run_body landmark m this.
Qed.

Lemma inverseDepthError3b_run (this : InvDepthFactorVariant3b.This)
    (pose1 pose2 : Pose3) (landmark : LieVector) (m : Machine) :
  InvDepthFactorVariant3b.inverseDepthError this pose1 pose2 landmark m =
  match landmark !! 0, landmark !! 1, landmark !! 2,
        calibrations m !! K_ this with
  | Some theta, Some phi, Some rho, Some K =>
      residual_of_projection (measured_ this) K
        (InvDepthFactorVariant3b.diagnostic this)
        (project (mkPinholeCamera pose2 K)
                 (coordinate_transform pose1 theta phi rho)) m
  | _, _, _, _ => (Abort, m)
  end.
Proof.
  unfold InvDepthFactorVariant3b.inverseDepthError,
    InvDepthFactorVariant3b.try_block, InvDepthFactorVariant3b.catch_block,
    function, sequence, try_catch, do_, decl, return_, skip, coeff, deref,
    camera_project, cout_write, bind, ret, abort, throw,
    coordinate_transform, local_point, residual_of_projection.
  run_body landmark m this.
Qed.

Lemma try_catch3a_returns (this : InvDepthFactorVariant3a.This) pose landmark m :
  fst (try_catch (InvDepthFactorVariant3a.try_block this pose landmark)
         (InvDepthFactorVariant3a.catch_block this) m) <> Next.
Proof.
  unfold InvDepthFactorVariant3a.try_block, InvDepthFactorVariant3a.catch_block,
    sequence, try_catch, do_, decl, return_, skip, coeff, deref,
    camera_project, cout_write, bind, ret, abort, throw.
  destruct (landmark !! 0); [ | discriminate].
  destruct (landmark !! 1); [ | discriminate].
  destruct (landmark !! 2); [ | discriminate].
  destruct (calibrations m !! K_ this) eqn:HK; [ | discriminate].
  destruct (project _ _); simpl; rewrite ?HK; discriminate.
Qed.

Lemma try_catch3b_returns (this : InvDepthFactorVariant3b.This) pose1 pose2
    landmark m :
  fst (try_catch (InvDepthFactorVariant3b.try_block this pose1 pose2 landmark)
         (InvDepthFactorVariant3b.catch_block this) m) <> Next.
Proof.
  unfold InvDepthFactorVariant3b.try_block, InvDepthFactorVariant3b.catch_block,
    sequence, try_catch, do_, decl, return_, skip, coeff, deref,
    camera_project, cout_write, bind, ret, abort, throw.
  destruct (landmark !! 0); [ | discriminate].
  destruct (landmark !! 1); [ | discriminate].
  destruct (landmark !! 2); [ | discriminate].
  destruct (calibrations m !! K_ this) eqn:HK; [ | discriminate].
  destruct (project _ _); simpl; rewrite ?HK; discriminate.
Qed.

Lemma evaluable_lookups {Base} (this : Factor Base) (landmark : LieVector) m :
  evaluable this landmark m ->
  exists theta phi rho K,
    landmark !! 0 = Some theta /\ landmark !! 1 = Some phi
    /\ landmark !! 2 = Some rho /\ calibrations m !! K_ this = Some K.
Proof.
  intros [Hlen [K HK]].
  destruct (lookup_lt_is_Some_2 landmark 0) as [theta H0]; [lia | ].
  destruct (lookup_lt_is_Some_2 landmark 1) as [phi H1]; [lia | ].
  destruct (lookup_lt_is_Some_2 landmark 2) as [rho H2]; [lia | ].
  exists theta, phi, rho, K. auto.
Qed.

End Evaluators.

Section EvaluatorFacts.
Context `{C : Collaborators}.

Lemma residual_of_projection_store measured K diag r m :
  same_store m (snd (residual_of_projection measured K diag r m)).
Proof. destruct r; simpl; [apply same_store_refl | apply same_store_printed]. Qed.

Lemma residual_of_projection_fst measured K diag r m1 m2 :
  fst (residual_of_projection measured K diag r m1)
  = fst (residual_of_projection measured K diag r m2).
Proof. destruct r; reflexivity. Qed.

Lemma residual_of_projection_length measured K diag r m v m' :
  residual_of_projection measured K diag r m = (Ok v, m') -> length v = 2.
Proof. destruct r; simpl; intros [= <- _]; reflexivity. Qed.

Lemma inverseDepthError3a_observer (this : InvDepthFactorVariant3a.This)
    (pose : Pose3) (landmark : LieVector) :
  observer (InvDepthFactorVariant3a.inverseDepthError this pose landmark).
Proof.
  split.
  - intros m. rewrite inverseDepthError3a_run.
    destruct (landmark !! 0), (landmark !! 1), (landmark !! 2),
      (calibrations m !! K_ this);
      solve [apply same_store_refl | apply residual_of_projection_store].
  - intros m1 m2 Hm. rewrite !inverseDepthError3a_run, Hm.
    destruct (landmark !! 0), (landmark !! 1), (landmark !! 2),
      (calibrations m2 !! K_ this);
      solve [reflexivity | apply residual_of_projection_fst].
Qed.

Lemma inverseDepthError3b_observer (this : InvDepthFactorVariant3b.This)
    (pose1 pose2 : Pose3) (landmark : LieVector) :
  observer (InvDepthFactorVariant3b.inverseDepthError this pose1 pose2 landmark).
Proof.
  split.
  - intros m. rewrite inverseDepthError3b_run.
    destruct (landmark !! 0), (landmark !! 1), (landmark !! 2),
      (calibrations m !! K_ this);
      solve [apply same_store_refl | apply residual_of_projection_store].
  - intros m1 m2 Hm. rewrite !inverseDepthError3b_run, Hm.
    destruct (landmark !! 0), (landmark !! 1), (landmark !! 2),
      (calibrations m2 !! K_ this);
      solve [reflexivity | apply residual_of_projection_fst].
Qed.

Lemma inverseDepthError3a_length this pose landmark m v m' :
  InvDepthFactorVariant3a.inverseDepthError this pose landmark m = (Ok v, m') ->
  length v = 2.
Proof.
  rewrite inverseDepthError3a_run.
  destruct (landmark !! 0), (landmark !! 1), (landmark !! 2),
    (calibrations m !! K_ this); try discriminate.
  apply residual_of_projection_length.
Qed.

Lemma inverseDepthError3b_length this pose1 pose2 landmark m v m' :
  InvDepthFactorVariant3b.inverseDepthError this pose1 pose2 landmark m
    = (Ok v, m') ->
  length v = 2.
Proof.
  rewrite inverseDepthError3b_run.
  destruct (landmark !! 0), (landmark !! 1), (landmark !! 2),
    (calibrations m !! K_ this); try discriminate.
  apply residual_of_projection_length.
Qed.

Lemma inverseDepthError3a_no_raise this pose landmark m e :
  fst (InvDepthFactorVariant3a.inverseDepthError this pose landmark m)
    <> Raise e.
Proof.
  rewrite inverseDepthError3a_run.
  destruct (landmark !! 0), (landmark !! 1), (landmark !! 2),
    (calibrations m !! K_ this); try discriminate.
  unfold residual_of_projection. destruct (project _ _); discriminate.
Qed.

Lemma inverseDepthError3b_no_raise this pose1 pose2 landmark m e :
  fst (InvDepthFactorVariant3b.inverseDepthError this pose1 pose2 landmark m)
    <> Raise e.
Proof.
  rewrite inverseDepthError3b_run.
  destruct (landmark !! 0), (landmark !! 1), (landmark !! 2),
    (calibrations m !! K_ this); try discriminate.
  unfold residual_of_projection. destruct (project _ _); discriminate.
Qed.

Lemma residual_of_projection_cases measured K diag r m v m' :
  residual_of_projection measured K diag r m = (Ok v, m') ->
  (exists p, r = inl p /\ v = residual p measured)
  \/ (exists e, r = inr e /\ v = sentinel K).
Proof.
  destruct r as [p | e]; simpl; intros [= <- _]; [left | right]; eauto.
Qed.

Lemma inverseDepthError3a_cases this pose landmark m v m' :
  InvDepthFactorVariant3a.inverseDepthError this pose landmark m = (Ok v, m') ->
  exists K, calibrations m !! K_ this = Some K
    /\ ((exists p, v = residual p (measured_ this)) \/ v = sentinel K).
Proof.
  rewrite inverseDepthError3a_run.
  destruct (landmark !! 0), (landmark !! 1), (landmark !! 2),
    (calibrations m !! K_ this) as [K | ]; try discriminate.
  intros Hr. exists K. split; [reflexivity | ].
  destruct (residual_of_projection_cases _ _ _ _ _ _ _ Hr)
    as [(p & _ & ->) | (e & _ & ->)]; eauto.
Qed.

Lemma inverseDepthError3b_cases this pose1 pose2 landmark m v m' :
  InvDepthFactorVariant3b.inverseDepthError this pose1 pose2 landmark m
  = (Ok v, m') ->
  exists K, calibrations m !! K_ this = Some K
    /\ ((exists p, v = residual p (measured_ this)) \/ v = sentinel K).
Proof.
  rewrite inverseDepthError3b_run.
  destruct (landmark !! 0), (landmark !! 1), (landmark !! 2),
    (calibrations m !! K_ this) as [K | ]; try discriminate.
  intros Hr. exists K. split; [reflexivity | ].
  destruct (residual_of_projection_cases _ _ _ _ _ _ _ Hr)
    as [(p & _ & ->) | (e & _ & ->)]; eauto.
Qed.

End EvaluatorFacts.

(** ** The Jacobian providers, run *)

Section Providers.
Context `{C : Collaborators}.
Context {DP : Differentiable Pose3} {DL : Differentiable LieVector}.

Ltac run_steps :=
  unfold function, sequence, do_, decl, skip, return_, bind, ret, assign;
  repeat match goal with
    | |- context [match ?e ?m with _ => _ end] =>
        match type of m with Machine => destruct (e m) as [[? | ? | ] ?] end
    end;
  reflexivity.

Lemma evaluateError3a_run (this : InvDepthFactorVariant3a.This) pose landmark
    H1 H2 m :
  InvDepthFactorVariant3a.evaluateError this pose landmark H1 H2 m
  = bind (slot_step H1
            (numericalDerivative11
               (fun x => InvDepthFactorVariant3a.inverseDepthError
                           this x landmark) pose))
      (fun _ =>
         bind (slot_step H2
                 (numericalDerivative11
                    (fun x => InvDepthFactorVariant3a.inverseDepthError
                                this pose x) landmark))
           (fun _ =>
              InvDepthFactorVariant3a.inverseDepthError this pose landmark)) m.
Proof.
  unfold InvDepthFactorVariant3a.evaluateError, slot_step, if_some.
  destruct H1, H2; run_steps.
Qed.

Lemma evaluateError3b_run (this : InvDepthFactorVariant3b.This) pose1 pose2
    landmark H1 H2 H3 m :
  InvDepthFactorVariant3b.evaluateError this pose1 pose2 landmark H1 H2 H3 m
  = bind (slot_step H1
            (numericalDerivative11
               (fun x => InvDepthFactorVariant3b.inverseDepthError
                           this x pose2 landmark) pose1))
      (fun _ =>
         bind (slot_step H2
                 (numericalDerivative11
                    (fun x => InvDepthFactorVariant3b.inverseDepthError
                                this pose1 x landmark) pose2))
           (fun _ =>
              bind (slot_step H3
                      (numericalDerivative11
                         (fun x => InvDepthFactorVariant3b.inverseDepthError
                                     this pose1 pose2 x) landmark))
                (fun _ =>
                   InvDepthFactorVariant3b.inverseDepthError
                     this pose1 pose2 landmark))) m.
Proof.
  unfold InvDepthFactorVariant3b.evaluateError, slot_step, if_some.
  destruct H1, H2, H3; run_steps.
Qed.

Lemma evaluateError3a_Ok_inv (this : InvDepthFactorVariant3a.This) pose
    landmark H1 H2 m v m' :
  InvDepthFactorVariant3a.evaluateError this pose landmark H1 H2 m = (Ok v, m') ->
  exists ma mb,
    slot_step H1
      (numericalDerivative11
         (fun x => InvDepthFactorVariant3a.inverseDepthError this x landmark)
         pose) m = (Ok tt, ma)
    /\ slot_step H2
         (numericalDerivative11
            (fun x => InvDepthFactorVariant3a.inverseDepthError this pose x)
            landmark) ma = (Ok tt, mb)
    /\ InvDepthFactorVariant3a.inverseDepthError this pose landmark mb
       = (Ok v, m').
Proof.
  rewrite evaluateError3a_run. intros Hrun.
  apply bind_Ok_inv in Hrun as ([] & ma & Ha & Hrun).
  apply bind_Ok_inv in Hrun as ([] & mb & Hb & Hrun).
  exists ma, mb. auto.
Qed.

Lemma evaluateError3b_Ok_inv (this : InvDepthFactorVariant3b.This) pose1 pose2
    landmark H1 H2 H3 m v m' :
  InvDepthFactorVariant3b.evaluateError this pose1 pose2 landmark H1 H2 H3 m
  = (Ok v, m') ->
  exists ma mb mc,
    slot_step H1
      (numericalDerivative11
         (fun x => InvDepthFactorVariant3b.inverseDepthError
                     this x pose2 landmark) pose1) m = (Ok tt, ma)
    /\ slot_step H2
         (numericalDerivative11
            (fun x => InvDepthFactorVariant3b.inverseDepthError
                        this pose1 x landmark) pose2) ma = (Ok tt, mb)
    /\ slot_step H3
         (numericalDerivative11
            (fun x => InvDepthFactorVariant3b.inverseDepthError
                        this pose1 pose2 x) landmark) mb = (Ok tt, mc)
    /\ InvDepthFactorVariant3b.inverseDepthError this pose1 pose2 landmark mc
       = (Ok v, m').
Proof.
  rewrite evaluateError3b_run. intros Hrun.
  apply bind_Ok_inv in Hrun as ([] & ma & Ha & Hrun).
  apply bind_Ok_inv in Hrun as ([] & mb & Hb & Hrun).
  apply bind_Ok_inv in Hrun as ([] & mc & Hc & Hrun).
  exists ma, mb, mc. auto.
Qed.

End Providers.

(** ** Degenerate projection (section 4.2, section 7) *)

Section Degenerate.
Context `{C : Collaborators}.

(** C1. Whenever the projection of the landmark's world point raises a
    cheirality fault, [inverseDepthError] returns the two-dimensional
    residual (2 fx, 2 fx), with fx taken from the stored calibration,
    after printing the diagnostic; and on no input at all does either
    variant let an exception escape. *)
Theorem cheirality_gives_sentinel :
  (forall (this : InvDepthFactorVariant3a.This) pose landmark theta phi rho
          K e m,
      landmark !! 0 = Some theta -> landmark !! 1 = Some phi ->
      landmark !! 2 = Some rho ->
      calibrations m !! K_ this = Some K ->
      project (mkPinholeCamera pose K)
              (coordinate_transform pose theta phi rho) = inr e ->
      InvDepthFactorVariant3a.inverseDepthError this pose landmark m
      = (Ok [(2 * fx K)%float; (2 * fx K)%float],
         printed m (InvDepthFactorVariant3a.diagnostic this e)))
  /\ (forall (this : InvDepthFactorVariant3b.This) pose1 pose2 landmark
             theta phi rho K e m,
      landmark !! 0 = Some theta -> landmark !! 1 = Some phi ->
      landmark !! 2 = Some rho ->
      calibrations m !! K_ this = Some K ->
      project (mkPinholeCamera pose2 K)
              (coordinate_transform pose1 theta phi rho) = inr e ->
      InvDepthFactorVariant3b.inverseDepthError this pose1 pose2 landmark m
      = (Ok [(2 * fx K)%float; (2 * fx K)%float],
         printed m (InvDepthFactorVariant3b.diagnostic this e)))
  /\ (forall (this : InvDepthFactorVariant3a.This) pose landmark m e,
      fst (InvDepthFactorVariant3a.inverseDepthError this pose landmark m)
      <> Raise e)
  /\ (forall (this : InvDepthFactorVariant3b.This) pose1 pose2 landmark m e,
      fst (InvDepthFactorVariant3b.inverseDepthError this pose1 pose2
             landmark m)
      <> Raise e).
Proof.
  repeat split.
  - intros this pose landmark theta phi rho K e m H0 H1 H2 HK Hp.
    rewrite inverseDepthError3a_run, H0, H1, H2, HK, Hp. reflexivity.
  - intros this pose1 pose2 landmark theta phi rho K e m H0 H1 H2 HK Hp.
    rewrite inverseDepthError3b_run, H0, H1, H2, HK, Hp. reflexivity.
  - intros. apply inverseDepthError3a_no_raise.
  - intros. apply inverseDepthError3b_no_raise.
Qed.

End Degenerate.

(** The one-pose factor at the identity pose with the landmark
    (0, 0, -1), and the two-pose factor with the landmark (0, 0, 1) seen
    from a camera two units further along the axis: both points lie behind
    the camera, and both evaluations return (2, 2) for fx = 1. *)
Lemma cheirality_gives_sentinel_witness :
  (calibrations Scenario.machine !! K_ Scenario.factor3a
     = Some (mkCal3_S2 1 1 0 0 0)
   /\ Scenario.project
        (mkPinholeCamera Scenario.identity (mkCal3_S2 1 1 0 0 0))
        (coordinate_transform (C := Scenario.collaborators)
           Scenario.identity 0 0 (-1)) = inr tt
   /\ Scenario.project
        (mkPinholeCamera (Scenario.translation 0 0 2) (mkCal3_S2 1 1 0 0 0))
        (coordinate_transform (C := Scenario.collaborators)
           Scenario.identity 0 0 1) = inr tt)
  /\ fst (InvDepthFactorVariant3a.inverseDepthError
            (C := Scenario.collaborators) Scenario.factor3a Scenario.identity
            [0; 0; -1]%float Scenario.machine)
     = Ok [2; 2]%float
  /\ fst (InvDepthFactorVariant3b.inverseDepthError
            (C := Scenario.collaborators) Scenario.factor3b Scenario.identity
            (Scenario.translation 0 0 2) [0; 0; 1]%float Scenario.machine)
     = Ok [2; 2]%float.
Proof.
  destruct (cheirality_gives_sentinel (C := Scenario.collaborators))
    as (Ha & Hb & _).
  split; [repeat split; vm_compute; reflexivity | split].
  - rewrite (Ha Scenario.factor3a Scenario.identity [0; 0; -1]%float
               0%float 0%float (-1)%float (mkCal3_S2 1 1 0 0 0) tt
               Scenario.machine);
      try reflexivity; vm_compute; reflexivity.
  - rewrite (Hb Scenario.factor3b Scenario.identity
               (Scenario.translation 0 0 2) [0; 0; 1]%float
               0%float 0%float 1%float (mkCal3_S2 1 1 0 0 0) tt
               Scenario.machine);
      try reflexivity; vm_compute; reflexivity.
Defined.

(** ** Coordinate transform and residual (sections 4.1 and 4.2) *)

Section Residual.
Context `{C : Collaborators}.
Context {DP : Differentiable Pose3} {DL : Differentiable LieVector}.

(** C2. For a landmark (theta, phi, rho) the evaluator forms the local
    point (cos phi sin theta / rho, sin phi / rho, cos phi cos theta / rho),
    maps it to the world with the reference pose's [transform_from], and
    hands exactly that point to the projection: the outcome of the
    evaluation is the outcome of projecting it.  The transform itself
    cannot fail and touches no state; in particular nothing is asked of
    rho (a zero rho gives IEEE infinities or NaNs, not an error). *)
Theorem coordinate_transform_computed :
  (forall (this : InvDepthFactorVariant3a.This) pose theta phi rho K m,
      calibrations m !! K_ this = Some K ->
      InvDepthFactorVariant3a.inverseDepthError this pose [theta; phi; rho] m
      = residual_of_projection (measured_ this) K
          (InvDepthFactorVariant3a.diagnostic this)
          (project (mkPinholeCamera pose K)
             (transform_from pose
                (mkPoint3 (cos phi * sin theta / rho)%float
                          (sin phi / rho)%float
                          (cos phi * cos theta / rho)%float))) m)
  /\ (forall (this : InvDepthFactorVariant3b.This) pose1 pose2 theta phi rho
             K m,
      calibrations m !! K_ this = Some K ->
      InvDepthFactorVariant3b.inverseDepthError this pose1 pose2
        [theta; phi; rho] m
      = residual_of_projection (measured_ this) K
          (InvDepthFactorVariant3b.diagnostic this)
          (project (mkPinholeCamera pose2 K)
             (transform_from pose1
                (mkPoint3 (cos phi * sin theta / rho)%float
                          (sin phi / rho)%float
                          (cos phi * cos theta / rho)%float))) m).
Proof.
  split.
  - intros this pose theta phi rho K m HK.
    rewrite inverseDepthError3a_run. simpl. rewrite HK. reflexivity.
  - intros this pose1 pose2 theta phi rho K m HK.
    rewrite inverseDepthError3b_run. simpl. rewrite HK. reflexivity.
Qed.

(** C3. Two-pose variant, projection succeeds: the residual is the image,
    in the camera built from the second pose and the stored calibration,
    of the world point built from the first pose and the landmark, minus
    the stored measurement.  Nothing is printed and the store is left as
    it was. *)
Theorem two_pose_residual :
  forall (this : InvDepthFactorVariant3b.This) pose1 pose2 landmark
         theta phi rho K p m,
    landmark !! 0 = Some theta -> landmark !! 1 = Some phi ->
    landmark !! 2 = Some rho ->
    calibrations m !! K_ this = Some K ->
    project (mkPinholeCamera pose2 K)
            (coordinate_transform pose1 theta phi rho) = inl p ->
    InvDepthFactorVariant3b.inverseDepthError this pose1 pose2 landmark m
    = (Ok [(x2 p - x2 (measured_ this))%float;
           (y2 p - y2 (measured_ this))%float], m).
Proof.
  intros this pose1 pose2 landmark theta phi rho K p m H0 H1 H2 HK Hp.
  rewrite inverseDepthError3b_run, H0, H1, H2, HK, Hp. reflexivity.
Qed.

(** C5. Every residual returned by [inverseDepthError], and so by
    [evaluateError], has exactly two coordinates: it is either a
    projection minus the measurement or the sentinel (2 fx, 2 fx).  The
    try/catch statement never completes by falling through, so the
    statement after it, which would return a vector of one coordinate, is
    never reached.  On a landmark with its three coordinates and a valid
    calibration pointer a residual is indeed returned. *)
Theorem residual_dimension_two :
  (forall (this : InvDepthFactorVariant3a.This) pose landmark m,
      (forall v m',
          InvDepthFactorVariant3a.inverseDepthError this pose landmark m
          = (Ok v, m') ->
          length v = 2
          /\ exists K, calibrations m !! K_ this = Some K
               /\ ((exists p, v = residual p (measured_ this))
                   \/ v = sentinel K))
      /\ (forall H1 H2 v m',
          InvDepthFactorVariant3a.evaluateError this pose landmark H1 H2 m
          = (Ok v, m') -> length v = 2)
      /\ fst (try_catch (InvDepthFactorVariant3a.try_block this pose landmark)
                (InvDepthFactorVariant3a.catch_block this) m) <> Next
      /\ (evaluable this landmark m ->
          exists v m',
            InvDepthFactorVariant3a.inverseDepthError this pose landmark m
            = (Ok v, m') /\ length v = 2))
  /\ (forall (this : InvDepthFactorVariant3b.This) pose1 pose2 landmark m,
      (forall v m',
          InvDepthFactorVariant3b.inverseDepthError this pose1 pose2 landmark m
          = (Ok v, m') ->
          length v = 2
          /\ exists K, calibrations m !! K_ this = Some K
               /\ ((exists p, v = residual p (measured_ this))
                   \/ v = sentinel K))
      /\ (forall H1 H2 H3 v m',
          InvDepthFactorVariant3b.evaluateError this pose1 pose2 landmark
            H1 H2 H3 m
          = (Ok v, m') -> length v = 2)
      /\ fst (try_catch
                (InvDepthFactorVariant3b.try_block this pose1 pose2 landmark)
                (InvDepthFactorVariant3b.catch_block this) m) <> Next
      /\ (evaluable this landmark m ->
          exists v m',
            InvDepthFactorVariant3b.inverseDepthError this pose1 pose2
              landmark m
            = (Ok v, m') /\ length v = 2)).
Proof.
  split.
  - intros this pose landmark m. split; [ | split; [ | split]].
    + intros v m' Hrun. split.
      * eapply inverseDepthError3a_length, Hrun.
      * eapply inverseDepthError3a_cases, Hrun.
    + intros H1 H2 v m' Hrun.
      apply evaluateError3a_Ok_inv in Hrun as (ma & mb & _ & _ & Hrun).
      eapply inverseDepthError3a_length, Hrun.
    + apply try_catch3a_returns.
    + intros Hwf.
      destruct (evaluable_lookups _ _ _ Hwf)
        as (theta & phi & rho & K & H0 & H1 & H2 & HK).
      rewrite inverseDepthError3a_run, H0, H1, H2, HK.
      unfold residual_of_projection.
      destruct (project _ _); eexists _, _; split; reflexivity.
  - intros this pose1 pose2 landmark m. split; [ | split; [ | split]].
    + intros v m' Hrun. split.
      * eapply inverseDepthError3b_length, Hrun.
      * eapply inverseDepthError3b_cases, Hrun.
    + intros H1 H2 H3 v m' Hrun.
      apply evaluateError3b_Ok_inv in Hrun as (ma & mb & mc & _ & _ & _ & Hrun).
      eapply inverseDepthError3b_length, Hrun.
    + apply try_catch3b_returns.
    + intros Hwf.
      destruct (evaluable_lookups _ _ _ Hwf)
        as (theta & phi & rho & K & H0 & H1 & H2 & HK).
      rewrite inverseDepthError3b_run, H0, H1, H2, HK.
      unfold residual_of_projection.
      destruct (project _ _); eexists _, _; split; reflexivity.
Qed.

End Residual.

(** Section 8, concrete scenario: identity pose, landmark (0, 0, 1),
    calibration (1, 1, 0, 0, 0), measurement (0, 0): the residual is
    (0, 0) in both variants, and the machine is untouched. *)
Lemma coordinate_transform_computed_witness :
  calibrations Scenario.machine !! K_ Scenario.factor3a
  = Some (mkCal3_S2 1 1 0 0 0)
  /\ InvDepthFactorVariant3a.inverseDepthError (C := Scenario.collaborators)
       Scenario.factor3a Scenario.identity [0; 0; 1]%float Scenario.machine
     = (Ok [0; 0]%float, Scenario.machine)
  /\ InvDepthFactorVariant3b.inverseDepthError (C := Scenario.collaborators)
       Scenario.factor3b Scenario.identity Scenario.identity [0; 0; 1]%float
       Scenario.machine
     = (Ok [0; 0]%float, Scenario.machine).
Proof.
  destruct (coordinate_transform_computed (C := Scenario.collaborators))
    as [Ha Hb].
  split; [reflexivity | split].
  - rewrite (Ha Scenario.factor3a Scenario.identity 0%float 0%float 1%float
               (mkCal3_S2 1 1 0 0 0) Scenario.machine); reflexivity.
  - rewrite (Hb Scenario.factor3b Scenario.identity Scenario.identity
               0%float 0%float 1%float (mkCal3_S2 1 1 0 0 0) Scenario.machine);
      reflexivity.
Defined.

(** The landmark (0, 0, 1) of the identity pose, seen from a camera at
    (1, 0, -1): depth 2, image point (-1/2, 0). *)
Lemma two_pose_residual_witness :
  (calibrations Scenario.machine !! K_ Scenario.factor3b
   = Some (mkCal3_S2 1 1 0 0 0)
   /\ Scenario.project
        (mkPinholeCamera (Scenario.translation 1 0 (-1)) (mkCal3_S2 1 1 0 0 0))
        (coordinate_transform (C := Scenario.collaborators)
           Scenario.identity 0 0 1)
      = inl (mkPoint2 (-0.5) 0))
  /\ InvDepthFactorVariant3b.inverseDepthError (C := Scenario.collaborators)
       Scenario.factor3b Scenario.identity (Scenario.translation 1 0 (-1))
       [0; 0; 1]%float Scenario.machine
     = (Ok [-0.5; 0]%float, Scenario.machine).
Proof.
  split; [split; vm_compute; reflexivity | ].
  rewrite (two_pose_residual (C := Scenario.collaborators)
             Scenario.factor3b Scenario.identity (Scenario.translation 1 0 (-1))
             [0; 0; 1]%float 0%float 0%float 1%float (mkCal3_S2 1 1 0 0 0)
             (mkPoint2 (-0.5) 0) Scenario.machine);
    try reflexivity; vm_compute; reflexivity.
Defined.

Lemma residual_dimension_two_witness :
  evaluable Scenario.factor3a [0; 0; 1]%float Scenario.machine
  /\ exists v m',
       InvDepthFactorVariant3a.inverseDepthError (C := Scenario.collaborators)
         Scenario.factor3a Scenario.identity [0; 0; 1]%float Scenario.machine
       = (Ok v, m') /\ length v = 2.
Proof.
  assert (Hwf : evaluable Scenario.factor3a [0; 0; 1]%float Scenario.machine).
  { split; [simpl; lia | eexists; reflexivity]. }
  split; [exact Hwf | ].
  destruct (residual_dimension_two (C := Scenario.collaborators)
              (DP := Scenario.differentiable_Pose3)
              (DL := Scenario.differentiable_LieVector)) as [Ha _].
  destruct (Ha Scenario.factor3a Scenario.identity [0; 0; 1]%float
              Scenario.machine) as (_ & _ & _ & Hret).
  exact (Hret Hwf).
Defined.

(** ** The two variants (section 2) and purity (section 3) *)

Section Variants.
Context `{C : Collaborators}.

(** C6. With the same measurement and the same calibration, the one-pose
    residual at a pose equals the two-pose residual with both the
    reference and the observing pose set to that pose.  (The diagnostics
    printed in the degenerate case differ in wording; the stores are left
    alike.) *)
Theorem one_pose_is_two_pose_at_same_pose :
  forall (a : InvDepthFactorVariant3a.This) (b : InvDepthFactorVariant3b.This)
         pose landmark m,
    measured_ a = measured_ b ->
    calibrations m !! K_ a = calibrations m !! K_ b ->
    fst (InvDepthFactorVariant3a.inverseDepthError a pose landmark m)
    = fst (InvDepthFactorVariant3b.inverseDepthError b pose pose landmark m)
    /\ same_store
         (snd (InvDepthFactorVariant3a.inverseDepthError a pose landmark m))
         (snd (InvDepthFactorVariant3b.inverseDepthError b pose pose landmark m)).
Proof.
  intros a b pose landmark m Hz HK.
  rewrite inverseDepthError3a_run, inverseDepthError3b_run, HK, Hz.
  destruct (landmark !! 0), (landmark !! 1), (landmark !! 2),
    (calibrations m !! K_ b); try (split; [reflexivity | apply same_store_refl]).
  unfold residual_of_projection.
  destruct (project _ _); split; try reflexivity; split; reflexivity.
Qed.

(** C7. Evaluating the residual is a pure function of the supplied pose
    and landmark and of the calibration the factor points to: it leaves
    the calibrations (and the matrices) of the machine as they were, so a
    second evaluation with the same inputs returns the same residual; and
    its result does not depend on anything in the machine but that
    calibration.  The factor itself, its measurement included, is passed
    as a constant. *)
Theorem evaluation_is_pure :
  (forall (this : InvDepthFactorVariant3a.This) pose landmark m,
      let first :=
        InvDepthFactorVariant3a.inverseDepthError this pose landmark m in
      let second :=
        InvDepthFactorVariant3a.inverseDepthError this pose landmark
          (snd first) in
      fst second = fst first
      /\ same_store m (snd first) /\ same_store m (snd second))
  /\ (forall (this : InvDepthFactorVariant3b.This) pose1 pose2 landmark m,
      let first :=
        InvDepthFactorVariant3b.inverseDepthError this pose1 pose2 landmark m in
      let second :=
        InvDepthFactorVariant3b.inverseDepthError this pose1 pose2 landmark
          (snd first) in
      fst second = fst first
      /\ same_store m (snd first) /\ same_store m (snd second))
  /\ (forall (this : InvDepthFactorVariant3a.This) pose landmark m1 m2,
      calibrations m1 !! K_ this = calibrations m2 !! K_ this ->
      fst (InvDepthFactorVariant3a.inverseDepthError this pose landmark m1)
      = fst (InvDepthFactorVariant3a.inverseDepthError this pose landmark m2))
  /\ (forall (this : InvDepthFactorVariant3b.This) pose1 pose2 landmark m1 m2,
      calibrations m1 !! K_ this = calibrations m2 !! K_ this ->
      fst (InvDepthFactorVariant3b.inverseDepthError this pose1 pose2
             landmark m1)
      = fst (InvDepthFactorVariant3b.inverseDepthError this pose1 pose2
               landmark m2)).
Proof.
  split; [ | split; [ | split]].
  - intros this pose landmark m first second.
    destruct (inverseDepthError3a_observer this pose landmark) as [Hst Hfst].
    pose proof (Hst m) as H1. pose proof (Hst (snd first)) as H2.
    fold first in H1. fold second in H2.
    repeat split; try apply H1.
    + apply Hfst. apply H1.
    + destruct H1, H2. congruence.
    + destruct H1, H2. congruence.
  - intros this pose1 pose2 landmark m first second.
    destruct (inverseDepthError3b_observer this pose1 pose2 landmark)
      as [Hst Hfst].
    pose proof (Hst m) as H1. pose proof (Hst (snd first)) as H2.
    fold first in H1. fold second in H2.
    repeat split; try apply H1.
    + apply Hfst. apply H1.
    + destruct H1, H2. congruence.
    + destruct H1, H2. congruence.
  - intros this pose landmark m1 m2 HK.
    rewrite !inverseDepthError3a_run, HK.
    destruct (landmark !! 0), (landmark !! 1), (landmark !! 2),
      (calibrations m2 !! K_ this);
      solve [reflexivity | apply residual_of_projection_fst].
  - intros this pose1 pose2 landmark m1 m2 HK.
    rewrite !inverseDepthError3b_run, HK.
    destruct (landmark !! 0), (landmark !! 1), (landmark !! 2),
      (calibrations m2 !! K_ this);
      solve [reflexivity | apply residual_of_projection_fst].
Qed.

End Variants.

Lemma one_pose_is_two_pose_at_same_pose_witness :
  (measured_ Scenario.factor3a = measured_ Scenario.factor3b
   /\ calibrations Scenario.machine !! K_ Scenario.factor3a
      = calibrations Scenario.machine !! K_ Scenario.factor3b)
  /\ fst (InvDepthFactorVariant3a.inverseDepthError
            (C := Scenario.collaborators) Scenario.factor3a
            (Scenario.translation 1 2 3) [0; 0; -1]%float Scenario.machine)
     = fst (InvDepthFactorVariant3b.inverseDepthError
              (C := Scenario.collaborators) Scenario.factor3b
              (Scenario.translation 1 2 3) (Scenario.translation 1 2 3)
              [0; 0; -1]%float Scenario.machine).
Proof.
  split; [split; reflexivity | ].
  apply (one_pose_is_two_pose_at_same_pose (C := Scenario.collaborators)
           Scenario.factor3a Scenario.factor3b (Scenario.translation 1 2 3)
           [0; 0; -1]%float Scenario.machine); reflexivity.
Defined.

(** The same evaluation before and after something has been printed. *)
Lemma evaluation_is_pure_witness :
  calibrations Scenario.machine !! K_ Scenario.factor3a
  = calibrations (printed Scenario.machine "log") !! K_ Scenario.factor3a
  /\ fst (InvDepthFactorVariant3a.inverseDepthError
            (C := Scenario.collaborators) Scenario.factor3a Scenario.identity
            [0; 0; 1]%float Scenario.machine)
     = fst (InvDepthFactorVariant3a.inverseDepthError
              (C := Scenario.collaborators) Scenario.factor3a Scenario.identity
              [0; 0; 1]%float (printed Scenario.machine "log")).
Proof.
  split; [reflexivity | ].
  destruct (evaluation_is_pure (C := Scenario.collaborators))
    as (_ & _ & Ha & _).
  apply (Ha Scenario.factor3a Scenario.identity [0; 0; 1]%float
           Scenario.machine (printed Scenario.machine "log")).
  reflexivity.
Defined.

(** ** The factor shell (section 4.4) *)

Section Shell.
Context `{C : Collaborators}.

(** C8. For two factors of the same variant whose calibration pointers
    are valid, [equals] returns normally, leaves the machine alone, and
    answers true exactly when the variable identifiers are equal, the
    measurements are equal within the tolerance and the calibrations are
    equal within the tolerance; so a difference in any one of the three
    makes it answer false.  Against a factor of the other variant it
    answers false. *)
Theorem equals_iff_fields_equal :
  (forall (this e : InvDepthFactorVariant3a.This) tol m Kthis Ke,
      calibrations m !! K_ this = Some Kthis ->
      calibrations m !! K_ e = Some Ke ->
      exists b,
        InvDepthFactorVariant3a.equals this (Variant3a e) tol m = (Ok b, m)
        /\ (b = true <->
            (InvDepthFactorVariant3a.key1 this = InvDepthFactorVariant3a.key1 e
             /\ InvDepthFactorVariant3a.key2 this
                = InvDepthFactorVariant3a.key2 e)
            /\ Point2_equals (measured_ this) (measured_ e) tol = true
            /\ Cal3_S2_equals Kthis Ke tol = true))
  /\ (forall (this e : InvDepthFactorVariant3b.This) tol m Kthis Ke,
      calibrations m !! K_ this = Some Kthis ->
      calibrations m !! K_ e = Some Ke ->
      exists b,
        InvDepthFactorVariant3b.equals this (Variant3b e) tol m = (Ok b, m)
        /\ (b = true <->
            (InvDepthFactorVariant3b.key1 this = InvDepthFactorVariant3b.key1 e
             /\ InvDepthFactorVariant3b.key2 this
                = InvDepthFactorVariant3b.key2 e
             /\ InvDepthFactorVariant3b.key3 this
                = InvDepthFactorVariant3b.key3 e)
            /\ Point2_equals (measured_ this) (measured_ e) tol = true
            /\ Cal3_S2_equals Kthis Ke tol = true))
  /\ (forall (this : InvDepthFactorVariant3a.This) e tol m,
      InvDepthFactorVariant3a.equals this (Variant3b e) tol m = (Ok false, m))
  /\ (forall (this : InvDepthFactorVariant3b.This) e tol m,
      InvDepthFactorVariant3b.equals this (Variant3a e) tol m = (Ok false, m)).
Proof.
  split; [ | split; [ | split; reflexivity]].
  - intros this e tol m Kthis Ke Hthis He.
    unfold InvDepthFactorVariant3a.equals. simpl. rewrite function_return.
    unfold and_then, bind, ret, deref, Base_equals. simpl.
    unfold InvDepthFactorVariant3a.key1, InvDepthFactorVariant3a.key2,
      NoiseModelFactor2.keys.
    case_bool_decide as Hk.
    + destruct (Point2_equals (measured_ this) (measured_ e) tol).
      * rewrite Hthis, He. eexists; split; [reflexivity | ].
        injection Hk as Hk1 Hk2. tauto.
      * exists false. split; [reflexivity | ].
        split; [discriminate | intros (_ & Hp & _); discriminate].
    + exists false. split; [reflexivity | ].
      split; [discriminate | intros ([Hk1 Hk2] & _)].
      exfalso. apply Hk. rewrite Hk1, Hk2. reflexivity.
  - intros this e tol m Kthis Ke Hthis He.
    unfold InvDepthFactorVariant3b.equals. simpl. rewrite function_return.
    unfold and_then, bind, ret, deref, Base_equals. simpl.
    unfold InvDepthFactorVariant3b.key1, InvDepthFactorVariant3b.key2,
      InvDepthFactorVariant3b.key3, NoiseModelFactor3.keys.
    case_bool_decide as Hk.
    + destruct (Point2_equals (measured_ this) (measured_ e) tol).
      * rewrite Hthis, He. eexists; split; [reflexivity | ].
        injection Hk as Hk1 Hk2 Hk3. tauto.
      * exists false. split; [reflexivity | ].
        split; [discriminate | intros (_ & Hp & _); discriminate].
    + exists false. split; [reflexivity | ].
      split; [discriminate | intros ((Hk1 & Hk2 & Hk3) & _)].
      exfalso. apply Hk. rewrite Hk1, Hk2, Hk3. reflexivity.
Qed.

(** C9. Default construction is accepted: it allocates a fresh
    calibration holding the placeholder intrinsics
    (444, 555, 666, 777, 888), points the factor at it, and leaves every
    calibration already in the store as it was. *)
Theorem default_constructor_placeholder :
  (forall m,
      exists (this : InvDepthFactorVariant3a.This) m',
        InvDepthFactorVariant3a.default_constructor m = (Ok this, m')
        /\ calibrations m' !! K_ this
           = Some (mkCal3_S2 444 555 666 777 888)
        /\ calibrations m !! K_ this = None
        /\ forall l, l <> K_ this ->
                     calibrations m' !! l = calibrations m !! l)
  /\ (forall m,
      exists (this : InvDepthFactorVariant3b.This) m',
        InvDepthFactorVariant3b.default_constructor m = (Ok this, m')
        /\ calibrations m' !! K_ this
           = Some (mkCal3_S2 444 555 666 777 888)
        /\ calibrations m !! K_ this = None
        /\ forall l, l <> K_ this ->
                     calibrations m' !! l = calibrations m !! l).
Proof.
  split; intros m; eexists _, _;
    (split; [reflexivity | simpl; split; [ | split]]).
  all: try apply lookup_insert_eq.
  all: try (apply not_elem_of_dom, is_fresh).
  all: intros l Hl; apply lookup_insert_ne; congruence.
Qed.

End Shell.

(** Two factors built from the same keys, measurement and calibration
    pointer compare equal. *)
Lemma equals_iff_fields_equal_witness :
  (calibrations Scenario.machine !! K_ Scenario.factor3a
   = Some (mkCal3_S2 1 1 0 0 0))
  /\ InvDepthFactorVariant3a.equals (C := Scenario.collaborators)
       Scenario.factor3a (Variant3a Scenario.factor3a)
       0x1p-30%float Scenario.machine
     = (Ok true, Scenario.machine).
Proof.
  split; [reflexivity | ].
  destruct (equals_iff_fields_equal (C := Scenario.collaborators)) as [Ha _].
  destruct (Ha Scenario.factor3a Scenario.factor3a 0x1p-30%float
              Scenario.machine (mkCal3_S2 1 1 0 0 0) (mkCal3_S2 1 1 0 0 0)
              eq_refl eq_refl)
    as (b & Hrun & Hb).
  assert (Htrue : b = true).
  { apply Hb. repeat split; vm_compute; reflexivity. }
  rewrite Hrun, Htrue. reflexivity.
Defined.

(** ** Jacobian slots (section 4.3) *)

Section Slots.
Context `{C : Collaborators}.

Lemma slot_step_calibrations H (e : Expr Matrix) m m' :
  observer e -> slot_step H e m = (Ok tt, m') ->
  calibrations m' = calibrations m.
Proof. intros He Hrun. apply (slot_step_Ok H e m m' He Hrun). Qed.



Lemma observer_fst {A} (e : Expr A) m1 m2 :
  observer e -> calibrations m1 = calibrations m2 -> fst (e m1) = fst (e m2).
Proof. intros [_ He]. apply He. Qed.


End Slots.

Section Totality.
Context `{C : Collaborators}.
Context {DP : Differentiable Pose3} {DL : Differentiable LieVector}.

Lemma evaluable_calibrations {Base} (this : Factor Base) landmark m m' :
  calibrations m' = calibrations m ->
  evaluable this landmark m -> evaluable this landmark m'.
Proof. intros Hc [Hlen HK]. split; [exact Hlen | rewrite Hc; exact HK]. Qed.

Lemma inverseDepthError3a_total (this : InvDepthFactorVariant3a.This) pose
    landmark m :
  evaluable this landmark m ->
  exists v m',
    InvDepthFactorVariant3a.inverseDepthError this pose landmark m = (Ok v, m').
Proof.
  intros Hwf.
  destruct (evaluable_lookups _ _ _ Hwf)
    as (theta & phi & rho & K & H0 & H1 & H2 & HK).
  rewrite inverseDepthError3a_run, H0, H1, H2, HK.
  unfold residual_of_projection. destruct (project _ _); eauto.
Qed.

Lemma inverseDepthError3b_total (this : InvDepthFactorVariant3b.This) pose1
    pose2 landmark m :
  evaluable this landmark m ->
  exists v m',
    InvDepthFactorVariant3b.inverseDepthError this pose1 pose2 landmark m
    = (Ok v, m').
Proof.
  intros Hwf.
  destruct (evaluable_lookups _ _ _ Hwf)
    as (theta & phi & rho & K & H0 & H1 & H2 & HK).
  rewrite inverseDepthError3b_run, H0, H1, H2, HK.
  unfold residual_of_projection. destruct (project _ _); eauto.
Qed.

(** A callback that returns at every point of [l], in every machine with
    the calibrations of [m0], makes [mapE] return. *)
Lemma mapE_total {A B} (f : A -> Expr B) (l : list A) m0 :
  (forall a, observer (f a)) ->
  (forall a m, a ∈ l -> calibrations m = calibrations m0 ->
               exists b m', f a m = (Ok b, m')) ->
  forall m, calibrations m = calibrations m0 ->
            exists bs m', mapE f l m = (Ok bs, m').
Proof.
  intros Hobs. induction l as [ | a l IH]; intros Hf m Hm; simpl.
  - eexists _, _. reflexivity.
  - destruct (Hf a m) as (b & m1 & Hb); [left | exact Hm | ].
    rewrite (bind_Ok _ _ _ _ _ Hb).
    destruct (Hobs a) as [Hst _]. specialize (Hst m). rewrite Hb in Hst.
    destruct Hst as [Hc1 _]. simpl in Hc1.
    destruct (IH (fun a' m' Ha' => Hf a' m' (list_elem_of_further _ _ _ Ha')) m1)
      as (bs & m2 & Hbs); [congruence | ].
    rewrite (bind_Ok _ _ _ _ _ Hbs). eexists _, _. reflexivity.
Qed.

Lemma slot_step_total {X} `{Differentiable X} (h : X -> Expr Vector) (x : X)
    (slot : option loc) m0 m :
  (forall y, observer (h y)) ->
  (forall y m1, y ∈ perturbed x -> calibrations m1 = calibrations m0 ->
                exists v m', h y m1 = (Ok v, m')) ->
  calibrations m = calibrations m0 ->
  exists m', slot_step slot (numericalDerivative11 h x) m = (Ok tt, m')
             /\ calibrations m' = calibrations m0.
Proof.
  intros Hobs Hret Hm. destruct slot as [h1 | ]; simpl.
  - destruct (mapE_total h (perturbed x) m0 Hobs Hret m Hm)
      as (values & m1 & Hvalues).
    pose proof (observer_mapE h (perturbed x) Hobs) as [Hst _].
    specialize (Hst m). rewrite Hvalues in Hst. destruct Hst as [Hc _].
    unfold numericalDerivative11.
    rewrite (bind_Ok _ _ _ _ _ (bind_Ok _ _ _ _ _ Hvalues)).
    eexists. split; [reflexivity | simpl in *; congruence].
  - eexists. split; [reflexivity | exact Hm].
Qed.

Lemma evaluateError3a_total (this : InvDepthFactorVariant3a.This) pose
    landmark H1 H2 m :
  evaluable this landmark m ->
  (forall x, x ∈ @perturbed _ DL landmark -> 3 <= length x) ->
  exists v m',
    InvDepthFactorVariant3a.evaluateError this pose landmark H1 H2 m
    = (Ok v, m').
Proof.
  intros Hwf Hdim. rewrite evaluateError3a_run.
  destruct (slot_step_total
              (fun x => InvDepthFactorVariant3a.inverseDepthError
                          this x landmark) pose H1 m m)
    as (ma & Ha & Hca); [ | | reflexivity | ].
  { intros. apply inverseDepthError3a_observer. }
  { intros y m1 _ Hm1. apply inverseDepthError3a_total.
    eapply evaluable_calibrations; eauto. }
  rewrite (bind_Ok _ _ _ _ _ Ha).
  destruct (slot_step_total
              (fun x => InvDepthFactorVariant3a.inverseDepthError this pose x)
              landmark H2 m ma)
    as (mb & Hb & Hcb); [ | | exact Hca | ].
  { intros. apply inverseDepthError3a_observer. }
  { intros y m1 Hy Hm1. apply inverseDepthError3a_total.
    split; [apply Hdim, Hy | rewrite Hm1; apply Hwf]. }
  rewrite (bind_Ok _ _ _ _ _ Hb).
  apply inverseDepthError3a_total. eapply evaluable_calibrations; eauto.
Qed.

Lemma evaluateError3b_total (this : InvDepthFactorVariant3b.This) pose1 pose2
    landmark H1 H2 H3 m :
  evaluable this landmark m ->
  (forall x, x ∈ @perturbed _ DL landmark -> 3 <= length x) ->
  exists v m',
    InvDepthFactorVariant3b.evaluateError this pose1 pose2 landmark H1 H2 H3 m
    = (Ok v, m').
Proof.
  intros Hwf Hdim. rewrite evaluateError3b_run.
  destruct (slot_step_total
              (fun x => InvDepthFactorVariant3b.inverseDepthError
                          this x pose2 landmark) pose1 H1 m m)
    as (ma & Ha & Hca); [ | | reflexivity | ].
  { intros. apply inverseDepthError3b_observer. }
  { intros y m1 _ Hm1. apply inverseDepthError3b_total.
    eapply evaluable_calibrations; eauto. }
  rewrite (bind_Ok _ _ _ _ _ Ha).
  destruct (slot_step_total
              (fun x => InvDepthFactorVariant3b.inverseDepthError
                          this pose1 x landmark) pose2 H2 m ma)
    as (mb & Hb & Hcb); [ | | exact Hca | ].
  { intros. apply inverseDepthError3b_observer. }
  { intros y m1 _ Hm1. apply inverseDepthError3b_total.
    eapply evaluable_calibrations; eauto. }
  rewrite (bind_Ok _ _ _ _ _ Hb).
  destruct (slot_step_total
              (fun x => InvDepthFactorVariant3b.inverseDepthError
                          this pose1 pose2 x) landmark H3 m mb)
    as (mc & Hc & Hcc); [ | | exact Hcb | ].
  { intros. apply inverseDepthError3b_observer. }
  { intros y m1 Hy Hm1. apply inverseDepthError3b_total.
    split; [apply Hdim, Hy | rewrite Hm1; apply Hwf]. }
  rewrite (bind_Ok _ _ _ _ _ Hc).
  apply inverseDepthError3b_total. eapply evaluable_calibrations; eauto.
Qed.

End Totality.

Section Jacobians.
Context `{C : Collaborators}.
Context {DP : Differentiable Pose3} {DL : Differentiable LieVector}.

(** C10. The residual returned by [evaluateError] does not depend on
    which Jacobian slots are supplied: any two evaluations on the same
    inputs that return, whatever their slots, return the same residual,
    and it is the residual [inverseDepthError] returns on those inputs.
    On a landmark with its three coordinates and a valid calibration
    pointer, and with a landmark utility that perturbs within the same
    dimension, every choice of slots does return. *)
Theorem residual_independent_of_slots :
  (forall (this : InvDepthFactorVariant3a.This) pose landmark m,
      (forall H1 H2 v m',
          InvDepthFactorVariant3a.evaluateError this pose landmark H1 H2 m
          = (Ok v, m') ->
          fst (InvDepthFactorVariant3a.inverseDepthError this pose landmark m)
          = Ok v)
      /\ (forall H1 H2 H1' H2' v v' m' m'',
          InvDepthFactorVariant3a.evaluateError this pose landmark H1 H2 m
          = (Ok v, m') ->
          InvDepthFactorVariant3a.evaluateError this pose landmark H1' H2' m
          = (Ok v', m'') ->
          v = v')
      /\ (evaluable this landmark m ->
          (forall x, x ∈ @perturbed _ DL landmark -> 3 <= length x) ->
          forall H1 H2,
          exists v m',
            InvDepthFactorVariant3a.evaluateError this pose landmark H1 H2 m
            = (Ok v, m')
            /\ fst (InvDepthFactorVariant3a.inverseDepthError
                      this pose landmark m) = Ok v))
  /\ (forall (this : InvDepthFactorVariant3b.This) pose1 pose2 landmark m,
      (forall H1 H2 H3 v m',
          InvDepthFactorVariant3b.evaluateError this pose1 pose2 landmark
            H1 H2 H3 m = (Ok v, m') ->
          fst (InvDepthFactorVariant3b.inverseDepthError this pose1 pose2
                 landmark m)
          = Ok v)
      /\ (forall H1 H2 H3 H1' H2' H3' v v' m' m'',
          InvDepthFactorVariant3b.evaluateError this pose1 pose2 landmark
            H1 H2 H3 m = (Ok v, m') ->
          InvDepthFactorVariant3b.evaluateError this pose1 pose2 landmark
            H1' H2' H3' m = (Ok v', m'') ->
          v = v')
      /\ (evaluable this landmark m ->
          (forall x, x ∈ @perturbed _ DL landmark -> 3 <= length x) ->
          forall H1 H2 H3,
          exists v m',
            InvDepthFactorVariant3b.evaluateError this pose1 pose2 landmark
              H1 H2 H3 m = (Ok v, m')
            /\ fst (InvDepthFactorVariant3b.inverseDepthError
                      this pose1 pose2 landmark m) = Ok v)).
Proof.
  split.
  - intros this pose landmark m.
    assert (Hnone : forall H1 H2 v m',
      InvDepthFactorVariant3a.evaluateError this pose landmark H1 H2 m
      = (Ok v, m') ->
      fst (InvDepthFactorVariant3a.inverseDepthError this pose landmark m)
      = Ok v).
    { intros H1 H2 v m' Hrun.
      apply evaluateError3a_Ok_inv in Hrun as (ma & mb & Ha & Hb & Hrun).
      apply slot_step_calibrations in Ha;
        [ | apply observer_numericalDerivative11; intros;
            apply inverseDepthError3a_observer].
      apply slot_step_calibrations in Hb;
        [ | apply observer_numericalDerivative11; intros;
            apply inverseDepthError3a_observer].
      rewrite (observer_fst _ m mb (inverseDepthError3a_observer _ _ _)),
        Hrun; [reflexivity | congruence]. }
    split; [exact Hnone | split].
    + intros H1 H2 H1' H2' v v' m' m'' Hrun Hrun'.
      apply Hnone in Hrun. apply Hnone in Hrun'. congruence.
    + intros Hwf Hdim H1 H2.
      destruct (evaluateError3a_total this pose landmark H1 H2 m Hwf Hdim)
        as (v & m' & Hrun).
      exists v, m'. split; [exact Hrun | exact (Hnone _ _ _ _ Hrun)].
  - intros this pose1 pose2 landmark m.
    assert (Hnone : forall H1 H2 H3 v m',
      InvDepthFactorVariant3b.evaluateError this pose1 pose2 landmark
        H1 H2 H3 m = (Ok v, m') ->
      fst (InvDepthFactorVariant3b.inverseDepthError this pose1 pose2
             landmark m)
      = Ok v).
    { intros H1 H2 H3 v m' Hrun.
      apply evaluateError3b_Ok_inv in Hrun
        as (ma & mb & mc & Ha & Hb & Hc & Hrun).
      apply slot_step_calibrations in Ha;
        [ | apply observer_numericalDerivative11; intros;
            apply inverseDepthError3b_observer].
      apply slot_step_calibrations in Hb;
        [ | apply observer_numericalDerivative11; intros;
            apply inverseDepthError3b_observer].
      apply slot_step_calibrations in Hc;
        [ | apply observer_numericalDerivative11; intros;
            apply inverseDepthError3b_observer].
      rewrite (observer_fst _ m mc (inverseDepthError3b_observer _ _ _ _)),
        Hrun; [reflexivity | congruence]. }
    split; [exact Hnone | split].
    + intros H1 H2 H3 H1' H2' H3' v v' m' m'' Hrun Hrun'.
      apply Hnone in Hrun. apply Hnone in Hrun'. congruence.
    + intros Hwf Hdim H1 H2 H3.
      destruct (evaluateError3b_total this pose1 pose2 landmark H1 H2 H3 m
                  Hwf Hdim) as (v & m' & Hrun).
      exists v, m'. split; [exact Hrun | exact (Hnone _ _ _ _ _ Hrun)].
Qed.

End Jacobians.

(** Both Jacobians of the one-pose factor requested at the scenario of
    section 8: the evaluation returns, and returns the residual of
    [inverseDepthError]. *)
Lemma residual_independent_of_slots_witness :
  (evaluable Scenario.factor3a [0; 0; 1]%float Scenario.machine
   /\ forall x,
        x ∈ @perturbed _ Scenario.differentiable_LieVector [0; 0; 1]%float ->
        3 <= length x)
  /\ exists v m',
       InvDepthFactorVariant3a.evaluateError (C := Scenario.collaborators)
         (DP := Scenario.differentiable_Pose3)
         (DL := Scenario.differentiable_LieVector)
         Scenario.factor3a Scenario.identity [0; 0; 1]%float
         (Some 0) (Some 1) Scenario.machine = (Ok v, m')
       /\ fst (InvDepthFactorVariant3a.inverseDepthError
                 (C := Scenario.collaborators) Scenario.factor3a
                 Scenario.identity [0; 0; 1]%float Scenario.machine)
          = Ok v.
Proof.
  assert (Hwf : evaluable Scenario.factor3a [0; 0; 1]%float Scenario.machine).
  { split; [simpl; lia | eexists; reflexivity]. }
  assert (Hdim : forall x,
             x ∈ @perturbed _ Scenario.differentiable_LieVector
                   [0; 0; 1]%float -> 3 <= length x).
  { apply Forall_forall. vm_compute. repeat constructor. }
  split; [split; assumption | ].
  destruct (residual_independent_of_slots (C := Scenario.collaborators)
              (DP := Scenario.differentiable_Pose3)
              (DL := Scenario.differentiable_LieVector)) as [Ha _].
  destruct (Ha Scenario.factor3a Scenario.identity [0; 0; 1]%float
              Scenario.machine) as (_ & _ & Htotal).
  exact (Htotal Hwf Hdim (Some 0) (Some 1)).
Defined.

Section StoredJacobians.
Context `{C : Collaborators}.
Context {DP : Differentiable Pose3} {DL : Differentiable LieVector}.

Lemma observer_jacobian3a_pose (this : InvDepthFactorVariant3a.This) pose landmark :
  observer (numericalDerivative11
              (fun x => InvDepthFactorVariant3a.inverseDepthError
                          this x landmark) pose).
Proof.
  apply observer_numericalDerivative11. intros.
  apply inverseDepthError3a_observer.
Qed.

Lemma observer_jacobian3a_landmark (this : InvDepthFactorVariant3a.This) pose
    landmark :
  observer (numericalDerivative11
              (fun x => InvDepthFactorVariant3a.inverseDepthError this pose x)
              landmark).
Proof.
  apply observer_numericalDerivative11. intros.
  apply inverseDepthError3a_observer.
Qed.

Lemma observer_jacobian3b_pose1 (this : InvDepthFactorVariant3b.This) pose1
    pose2 landmark :
  observer (numericalDerivative11
              (fun x => InvDepthFactorVariant3b.inverseDepthError
                          this x pose2 landmark) pose1).
Proof.
  apply observer_numericalDerivative11. intros.
  apply inverseDepthError3b_observer.
Qed.

Lemma observer_jacobian3b_pose2 (this : InvDepthFactorVariant3b.This) pose1
    pose2 landmark :
  observer (numericalDerivative11
              (fun x => InvDepthFactorVariant3b.inverseDepthError
                          this pose1 x landmark) pose2).
Proof.
  apply observer_numericalDerivative11. intros.
  apply inverseDepthError3b_observer.
Qed.

Lemma observer_jacobian3b_landmark (this : InvDepthFactorVariant3b.This) pose1
    pose2 landmark :
  observer (numericalDerivative11
              (fun x => InvDepthFactorVariant3b.inverseDepthError
                          this pose1 pose2 x) landmark).
Proof.
  apply observer_numericalDerivative11. intros.
  apply inverseDepthError3b_observer.
Qed.



End StoredJacobians.

Section RequestedJacobians.
Context `{C : Collaborators}.
Context {DP : Differentiable Pose3} {DL : Differentiable LieVector}.


End RequestedJacobians.



(** A zero inverse depth is not guarded (section 7): the local point has
    infinite or NaN coordinates, and the evaluation still returns a
    two-dimensional residual. *)
Example rho_zero_is_not_an_error :
  fst (InvDepthFactorVariant3a.inverseDepthError (C := Scenario.collaborators)
         Scenario.factor3a Scenario.identity [0; 0; 0]%float Scenario.machine)
  = Ok [nan; nan].
Proof. vm_compute. reflexivity. Qed.

(** ** Edge behaviour of the residual evaluators *)

Section EvaluatorEdges.
Context `{C : Collaborators}.

(** X2. Only the first three coordinates of the landmark vector are read:
    two landmarks that agree on them give the same evaluation, whatever
    follows. *)
Theorem inverseDepthError_reads_three_coordinates :
  (forall (this : InvDepthFactorVariant3a.This) pose landmark landmark' m,
      take 3 landmark = take 3 landmark' ->
      InvDepthFactorVariant3a.inverseDepthError this pose landmark m
      = InvDepthFactorVariant3a.inverseDepthError this pose landmark' m)
  /\ (forall (this : InvDepthFactorVariant3b.This) pose1 pose2 landmark
             landmark' m,
      take 3 landmark = take 3 landmark' ->
      InvDepthFactorVariant3b.inverseDepthError this pose1 pose2 landmark m
      = InvDepthFactorVariant3b.inverseDepthError this pose1 pose2 landmark' m).
Proof.
  assert (Hlook : forall (l l' : LieVector) i,
             take 3 l = take 3 l' -> i < 3 -> l !! i = l' !! i).
  { intros l l' i Htake Hi.
    rewrite <- (lookup_take_lt l 3 i Hi), <- (lookup_take_lt l' 3 i Hi), Htake.
    reflexivity. }
  split.
  - intros this pose landmark landmark' m Htake.
    rewrite !inverseDepthError3a_run,
      (Hlook _ _ 0 Htake), (Hlook _ _ 1 Htake), (Hlook _ _ 2 Htake) by lia.
    reflexivity.
  - intros this pose1 pose2 landmark landmark' m Htake.
    rewrite !inverseDepthError3b_run,
      (Hlook _ _ 0 Htake), (Hlook _ _ 1 Htake), (Hlook _ _ 2 Htake) by lia.
    reflexivity.
Qed.

(** X3. The only side effect of an evaluation is the diagnostic of the
    degenerate path: either the machine is left exactly as it was, or the
    projection raised, the sentinel is returned and one diagnostic has
    been appended to [std::cout]. *)
Theorem inverseDepthError_prints_only_when_degenerate :
  (forall (this : InvDepthFactorVariant3a.This) pose landmark m,
      snd (InvDepthFactorVariant3a.inverseDepthError this pose landmark m) = m
      \/ exists K e theta phi rho,
           landmark !! 0 = Some theta /\ landmark !! 1 = Some phi
           /\ landmark !! 2 = Some rho
           /\ calibrations m !! K_ this = Some K
           /\ project (mkPinholeCamera pose K)
                (coordinate_transform pose theta phi rho) = inr e
           /\ InvDepthFactorVariant3a.inverseDepthError this pose landmark m
              = (Ok (sentinel K),
                 printed m (InvDepthFactorVariant3a.diagnostic this e)))
  /\ (forall (this : InvDepthFactorVariant3b.This) pose1 pose2 landmark m,
      snd (InvDepthFactorVariant3b.inverseDepthError this pose1 pose2
             landmark m) = m
      \/ exists K e theta phi rho,
           landmark !! 0 = Some theta /\ landmark !! 1 = Some phi
           /\ landmark !! 2 = Some rho
           /\ calibrations m !! K_ this = Some K
           /\ project (mkPinholeCamera pose2 K)
                (coordinate_transform pose1 theta phi rho) = inr e
           /\ InvDepthFactorVariant3b.inverseDepthError this pose1 pose2
                landmark m
              = (Ok (sentinel K),
                 printed m (InvDepthFactorVariant3b.diagnostic this e))).
Proof.
  split.
  - intros this pose landmark m. rewrite inverseDepthError3a_run.
    destruct (landmark !! 0) as [theta | ], (landmark !! 1) as [phi | ],
      (landmark !! 2) as [rho | ], (calibrations m !! K_ this) as [K | ];
      try (left; reflexivity).
    unfold residual_of_projection.
    destruct (project _ _) as [p | e] eqn:Hp; [left; reflexivity | right].
    exists K, e, theta, phi, rho. repeat split; try reflexivity. exact Hp.
  - intros this pose1 pose2 landmark m. rewrite inverseDepthError3b_run.
    destruct (landmark !! 0) as [theta | ], (landmark !! 1) as [phi | ],
      (landmark !! 2) as [rho | ], (calibrations m !! K_ this) as [K | ];
      try (left; reflexivity).
    unfold residual_of_projection.
    destruct (project _ _) as [p | e] eqn:Hp; [left; reflexivity | right].
    exists K, e, theta, phi, rho. repeat split; try reflexivity. exact Hp.
Qed.

(** X4. The residual does not depend on the base part of the factor (its
    variable identifiers and noise model): two factors of a variant with
    the same measurement and the same calibration pointer return the same
    residual and leave the same stores; the identifiers show only in the
    diagnostic. *)
Theorem residual_ignores_keys_and_noise :
  (forall (a b : InvDepthFactorVariant3a.This) pose landmark m,
      measured_ a = measured_ b -> K_ a = K_ b ->
      fst (InvDepthFactorVariant3a.inverseDepthError a pose landmark m)
      = fst (InvDepthFactorVariant3a.inverseDepthError b pose landmark m))
  /\ (forall (a b : InvDepthFactorVariant3b.This) pose1 pose2 landmark m,
      measured_ a = measured_ b -> K_ a = K_ b ->
      fst (InvDepthFactorVariant3b.inverseDepthError a pose1 pose2 landmark m)
      = fst (InvDepthFactorVariant3b.inverseDepthError b pose1 pose2
               landmark m)).
Proof.
  split.
  - intros a b pose landmark m Hz HK.
    rewrite !inverseDepthError3a_run, Hz, HK.
    destruct (landmark !! 0), (landmark !! 1), (landmark !! 2),
      (calibrations m !! K_ b); try reflexivity.
    unfold residual_of_projection. destruct (project _ _); reflexivity.
  - intros a b pose1 pose2 landmark m Hz HK.
    rewrite !inverseDepthError3b_run, Hz, HK.
    destruct (landmark !! 0), (landmark !! 1), (landmark !! 2),
      (calibrations m !! K_ b); try reflexivity.
    unfold residual_of_projection. destruct (project _ _); reflexivity.
Qed.

End EvaluatorEdges.

Lemma inverseDepthError_reads_three_coordinates_witness :
  take 3 [0; 0; 1; 7; 8]%float = take 3 [0; 0; 1]%float
  /\ InvDepthFactorVariant3a.inverseDepthError (C := Scenario.collaborators)
       Scenario.factor3a Scenario.identity [0; 0; 1; 7; 8]%float
       Scenario.machine
     = InvDepthFactorVariant3a.inverseDepthError (C := Scenario.collaborators)
         Scenario.factor3a Scenario.identity [0; 0; 1]%float Scenario.machine.
Proof.
  split; [reflexivity | ].
  destruct (inverseDepthError_reads_three_coordinates
              (C := Scenario.collaborators)) as [Ha _].
  exact (Ha Scenario.factor3a Scenario.identity [0; 0; 1; 7; 8]%float
           [0; 0; 1]%float Scenario.machine eq_refl).
Defined.

(** The scenario factor and one bound to other variables, with a noise
    model. *)
Lemma residual_ignores_keys_and_noise_witness :
  let other :=
    InvDepthFactorVariant3a.constructor (C := Scenario.collaborators)
      7%N 9%N (mkPoint2 0 0) 0%nat (Some 0.5%float) in
  (measured_ Scenario.factor3a = measured_ other
   /\ K_ Scenario.factor3a = K_ other)
  /\ fst (InvDepthFactorVariant3a.inverseDepthError
            (C := Scenario.collaborators) Scenario.factor3a Scenario.identity
            [0; 0; -1]%float Scenario.machine)
     = fst (InvDepthFactorVariant3a.inverseDepthError
              (C := Scenario.collaborators) other Scenario.identity
              [0; 0; -1]%float Scenario.machine).
Proof.
  intros other. split; [split; reflexivity | ].
  destruct (residual_ignores_keys_and_noise (C := Scenario.collaborators))
    as [Ha _].
  exact (Ha Scenario.factor3a other Scenario.identity [0; 0; -1]%float
           Scenario.machine eq_refl eq_refl).
Defined.

(** ** Edge behaviour of the Jacobian providers *)

Section ProviderEdges.
Context `{C : Collaborators}.

Lemma never_raises_ret {A} (a : A) : never_raises (ret a).
Proof. intros m x. discriminate. Qed.

Lemma never_raises_bind {A B} (e : Expr A) (k : A -> Expr B) :
  never_raises e -> (forall a, never_raises (k a)) -> never_raises (bind e k).
Proof.
  intros He Hk m x. unfold bind. specialize (He m).
  destruct (e m) as [[a | y | ] m1]; simpl in *.
  - apply Hk.
  - intros _. apply (He y). reflexivity.
  - discriminate.
Qed.

Lemma never_raises_mapE {A B} (f : A -> Expr B) (l : list A) :
  (forall a, never_raises (f a)) -> never_raises (mapE f l).
Proof.
  intros Hf. induction l as [ | a l IH]; simpl.
  - apply never_raises_ret.
  - apply never_raises_bind; [apply Hf | intros b].
    apply never_raises_bind; [exact IH | intros; apply never_raises_ret].
Qed.

Lemma never_raises_slot_step {X} `{Differentiable X} (h : X -> Expr Vector)
    (x : X) (slot : option loc) :
  (forall y, never_raises (h y)) ->
  never_raises (slot_step slot (numericalDerivative11 h x)).
Proof.
  intros Hh. destruct slot as [s | ]; simpl; [ | apply never_raises_ret].
  apply never_raises_bind; [ | intros J m x'; discriminate].
  unfold numericalDerivative11.
  apply never_raises_bind;
    [apply never_raises_mapE, Hh | intros; apply never_raises_ret].
Qed.

Lemma writes_only_refl slots m : writes_only slots m m.
Proof. split; reflexivity. Qed.

Lemma writes_only_trans slots m1 m2 m3 :
  writes_only slots m1 m2 -> writes_only slots m2 m3 -> writes_only slots m1 m3.
Proof.
  intros [Hc1 Hm1] [Hc2 Hm2]. split; [congruence | ].
  intros l Hl. rewrite (Hm2 l Hl). apply (Hm1 l Hl).
Qed.

Lemma writes_only_same_store slots m m' :
  same_store m m' -> writes_only slots m m'.
Proof. intros [Hc Hm]. split; [exact Hc | intros; rewrite Hm; reflexivity]. Qed.

Lemma writes_only_bind {A B} slots (e : Expr A) (k : A -> Expr B) m :
  writes_only slots m (snd (e m)) ->
  (forall a m1, writes_only slots m1 (snd (k a m1))) ->
  writes_only slots m (snd (bind e k m)).
Proof.
  intros He Hk. unfold bind.
  destruct (e m) as [[a | y | ] m1]; simpl in *; try exact He.
  eapply writes_only_trans; [exact He | apply Hk].
Qed.

Lemma writes_only_slot_step slots slot (e : Expr Matrix) m :
  observer e -> slot ∈ slots ->
  writes_only slots m (snd (slot_step slot e m)).
Proof.
  intros [He _] Hin. destruct slot as [h | ]; simpl;
    [ | apply writes_only_refl].
  apply writes_only_bind.
  - apply writes_only_same_store, He.
  - intros J m1. split; [reflexivity | ].
    intros l Hl. simpl. apply lookup_insert_ne. intros ->. exact (Hl Hin).
Qed.

Lemma mapE_constant {A B} (f : A -> Expr B) (l : list A) (v : B) m0 :
  (forall a, observer (f a)) ->
  (forall a m, a ∈ l -> calibrations m = calibrations m0 ->
               fst (f a m) = Ok v) ->
  forall m, calibrations m = calibrations m0 ->
            fst (mapE f l m) = Ok (replicate (length l) v).
Proof.
  intros Hobs. induction l as [ | a l IH]; intros Hf m Hm; simpl.
  - reflexivity.
  - pose proof (Hf a m (list_elem_of_here _ _) Hm) as Ha.
    destruct (Hobs a) as [Hst _]. specialize (Hst m).
    unfold bind at 1. destruct (f a m) as [r m1]. simpl in Ha, Hst. subst r.
    destruct Hst as [Hc1 _].
    specialize (IH (fun a' m' Ha' => Hf a' m' (list_elem_of_further _ _ _ Ha'))
                  m1 ltac:(congruence)).
    unfold bind. destruct (mapE f l m1) as [r m2]. simpl in IH. subst r.
    reflexivity.
Qed.

End ProviderEdges.

Section ProviderTheorems.
Context `{C : Collaborators}.
Context {DP : Differentiable Pose3} {DL : Differentiable LieVector}.

Lemma never_raises3a (this : InvDepthFactorVariant3a.This) pose landmark :
  never_raises (InvDepthFactorVariant3a.inverseDepthError this pose landmark).
Proof. intros m x. apply inverseDepthError3a_no_raise. Qed.

Lemma never_raises3b (this : InvDepthFactorVariant3b.This) pose1 pose2 landmark :
  never_raises
    (InvDepthFactorVariant3b.inverseDepthError this pose1 pose2 landmark).
Proof. intros m x. apply inverseDepthError3b_no_raise. Qed.

Lemma evaluateError3a_no_raise (this : InvDepthFactorVariant3a.This) pose
    landmark H1 H2 m e :
  fst (InvDepthFactorVariant3a.evaluateError this pose landmark H1 H2 m)
  <> Raise e.
Proof.
  rewrite evaluateError3a_run.
  revert m e. change (never_raises
    (bind (slot_step H1
             (numericalDerivative11
                (fun x => InvDepthFactorVariant3a.inverseDepthError
                            this x landmark) pose))
       (fun _ =>
          bind (slot_step H2
                  (numericalDerivative11
                     (fun x => InvDepthFactorVariant3a.inverseDepthError
                                 this pose x) landmark))
            (fun _ => InvDepthFactorVariant3a.inverseDepthError
                        this pose landmark)))).
  apply never_raises_bind;
    [apply never_raises_slot_step; intros; apply never_raises3a | intros _].
  apply never_raises_bind;
    [apply never_raises_slot_step; intros; apply never_raises3a | intros _].
  apply never_raises3a.
Qed.

Lemma evaluateError3b_no_raise (this : InvDepthFactorVariant3b.This) pose1
    pose2 landmark H1 H2 H3 m e :
  fst (InvDepthFactorVariant3b.evaluateError this pose1 pose2 landmark
         H1 H2 H3 m)
  <> Raise e.
Proof.
  rewrite evaluateError3b_run.
  revert m e. change (never_raises
    (bind (slot_step H1
             (numericalDerivative11
                (fun x => InvDepthFactorVariant3b.inverseDepthError
                            this x pose2 landmark) pose1))
       (fun _ =>
          bind (slot_step H2
                  (numericalDerivative11
                     (fun x => InvDepthFactorVariant3b.inverseDepthError
                                 this pose1 x landmark) pose2))
            (fun _ =>
               bind (slot_step H3
                       (numericalDerivative11
                          (fun x => InvDepthFactorVariant3b.inverseDepthError
                                      this pose1 pose2 x) landmark))
                 (fun _ => InvDepthFactorVariant3b.inverseDepthError
                             this pose1 pose2 landmark))))).
  apply never_raises_bind;
    [apply never_raises_slot_step; intros; apply never_raises3b | intros _].
  apply never_raises_bind;
    [apply never_raises_slot_step; intros; apply never_raises3b | intros _].
  apply never_raises_bind;
    [apply never_raises_slot_step; intros; apply never_raises3b | intros _].
  apply never_raises3b.
Qed.

(** X5. No exception escapes [evaluateError] either, whichever Jacobians are
    requested: a cheirality fault at the operating point or at any point
    the differentiation utility visits is absorbed by the evaluator it
    occurs in. *)
Theorem evaluateError_never_raises :
  (forall (this : InvDepthFactorVariant3a.This) pose landmark H1 H2 m e,
      fst (InvDepthFactorVariant3a.evaluateError this pose landmark H1 H2 m)
      <> Raise e)
  /\ (forall (this : InvDepthFactorVariant3b.This) pose1 pose2 landmark
             H1 H2 H3 m e,
      fst (InvDepthFactorVariant3b.evaluateError this pose1 pose2 landmark
             H1 H2 H3 m)
      <> Raise e).
Proof.
  split; intros.
  - apply evaluateError3a_no_raise.
  - apply evaluateError3b_no_raise.
Qed.

(** X6. However [evaluateError] ends, with a residual or in a failed
    assertion part of the way, it has changed no calibration and no
    matrix other than those its supplied slots refer to. *)
Theorem evaluateError_writes_only_its_slots :
  (forall (this : InvDepthFactorVariant3a.This) pose landmark H1 H2 m,
      writes_only [H1; H2] m
        (snd (InvDepthFactorVariant3a.evaluateError this pose landmark
                H1 H2 m)))
  /\ (forall (this : InvDepthFactorVariant3b.This) pose1 pose2 landmark
             H1 H2 H3 m,
      writes_only [H1; H2; H3] m
        (snd (InvDepthFactorVariant3b.evaluateError this pose1 pose2 landmark
                H1 H2 H3 m))).
Proof.
  split.
  - intros this pose landmark H1 H2 m. rewrite evaluateError3a_run.
    apply writes_only_bind;
      [ apply writes_only_slot_step;
        [apply observer_jacobian3a_pose | set_solver] | intros _ ma ].
    apply writes_only_bind;
      [ apply writes_only_slot_step;
        [apply observer_jacobian3a_landmark | set_solver] | intros _ mb ].
    apply writes_only_same_store, inverseDepthError3a_observer.
  - intros this pose1 pose2 landmark H1 H2 H3 m. rewrite evaluateError3b_run.
    apply writes_only_bind;
      [ apply writes_only_slot_step;
        [apply observer_jacobian3b_pose1 | set_solver] | intros _ ma ].
    apply writes_only_bind;
      [ apply writes_only_slot_step;
        [apply observer_jacobian3b_pose2 | set_solver] | intros _ mb ].
    apply writes_only_bind;
      [ apply writes_only_slot_step;
        [apply observer_jacobian3b_landmark | set_solver] | intros _ mc ].
    apply writes_only_same_store, inverseDepthError3b_observer.
Qed.

(** X7. Section 4.3, failure semantics: the fallback of the degenerate case
    is consumed as data.  If the projection faults at every point the
    utility visits around the landmark, the utility differences a list of
    identical sentinels (2 fx, 2 fx), one per point visited. *)
Theorem jacobian_in_degenerate_region :
  (forall (this : InvDepthFactorVariant3a.This) pose landmark K m,
      calibrations m !! K_ this = Some K ->
      (forall y, y ∈ perturbed landmark ->
         exists theta phi rho e,
           y !! 0 = Some theta /\ y !! 1 = Some phi /\ y !! 2 = Some rho
           /\ project (mkPinholeCamera pose K)
                (coordinate_transform pose theta phi rho) = inr e) ->
      fst (numericalDerivative11
             (fun x => InvDepthFactorVariant3a.inverseDepthError this pose x)
             landmark m)
      = Ok (differencing landmark
              (replicate (length (perturbed landmark)) (sentinel K))))
  /\ (forall (this : InvDepthFactorVariant3b.This) pose1 pose2 landmark K m,
      calibrations m !! K_ this = Some K ->
      (forall y, y ∈ perturbed landmark ->
         exists theta phi rho e,
           y !! 0 = Some theta /\ y !! 1 = Some phi /\ y !! 2 = Some rho
           /\ project (mkPinholeCamera pose2 K)
                (coordinate_transform pose1 theta phi rho) = inr e) ->
      fst (numericalDerivative11
             (fun x => InvDepthFactorVariant3b.inverseDepthError
                         this pose1 pose2 x)
             landmark m)
      = Ok (differencing landmark
              (replicate (length (perturbed landmark)) (sentinel K)))).
Proof.
  split.
  - intros this pose landmark K m HK Hbehind.
    assert (Hconst :
      fst (mapE (fun x => InvDepthFactorVariant3a.inverseDepthError
                              this pose x)
             (perturbed landmark) m)
      = Ok (replicate (length (perturbed landmark)) (sentinel K))).
    { apply (mapE_constant _ _ _ m); [ | | reflexivity].
      - intros. apply inverseDepthError3a_observer.
      - intros y m' Hy Hm'.
        destruct (Hbehind y Hy) as (theta & phi & rho & e & H0 & H1 & H2 & Hp).
        rewrite inverseDepthError3a_run, H0, H1, H2, Hm', HK, Hp.
        reflexivity. }
    unfold numericalDerivative11, bind.
    destruct (mapE _ (perturbed landmark) m) as [r m1]. simpl in Hconst.
    subst r. reflexivity.
  - intros this pose1 pose2 landmark K m HK Hbehind.
    assert (Hconst :
      fst (mapE (fun x => InvDepthFactorVariant3b.inverseDepthError
                              this pose1 pose2 x)
             (perturbed landmark) m)
      = Ok (replicate (length (perturbed landmark)) (sentinel K))).
    { apply (mapE_constant _ _ _ m); [ | | reflexivity].
      - intros. apply inverseDepthError3b_observer.
      - intros y m' Hy Hm'.
        destruct (Hbehind y Hy) as (theta & phi & rho & e & H0 & H1 & H2 & Hp).
        rewrite inverseDepthError3b_run, H0, H1, H2, Hm', HK, Hp.
        reflexivity. }
    unfold numericalDerivative11, bind.
    destruct (mapE _ (perturbed landmark) m) as [r m1]. simpl in Hconst.
    subst r. reflexivity.
Qed.

End ProviderTheorems.

(** The landmark (0, 0, -1) of the identity pose lies behind the camera,
    and so do the six points one step away from it: the landmark Jacobian
    is the difference of equal sentinels, the zero matrix. *)
Lemma jacobian_in_degenerate_region_witness :
  (calibrations Scenario.machine !! K_ Scenario.factor3a
   = Some (mkCal3_S2 1 1 0 0 0)
   /\ forall y,
        y ∈ @perturbed _ Scenario.differentiable_LieVector [0; 0; -1]%float ->
        exists theta phi rho e,
          y !! 0 = Some theta /\ y !! 1 = Some phi /\ y !! 2 = Some rho
          /\ Scenario.project
               (mkPinholeCamera Scenario.identity (mkCal3_S2 1 1 0 0 0))
               (coordinate_transform (C := Scenario.collaborators)
                  Scenario.identity theta phi rho) = inr e)
  /\ fst (numericalDerivative11 (C := Scenario.collaborators)
            (H := Scenario.differentiable_LieVector)
            (fun x => InvDepthFactorVariant3a.inverseDepthError
                        Scenario.factor3a Scenario.identity x)
            [0; 0; -1]%float Scenario.machine)
     = Ok [[0; 0]; [0; 0]; [0; 0]]%float.
Proof.
  assert (Hbehind : forall y,
    y ∈ @perturbed _ Scenario.differentiable_LieVector [0; 0; -1]%float ->
    exists theta phi rho e,
      y !! 0 = Some theta /\ y !! 1 = Some phi /\ y !! 2 = Some rho
      /\ Scenario.project
           (mkPinholeCamera Scenario.identity (mkCal3_S2 1 1 0 0 0))
           (coordinate_transform (C := Scenario.collaborators)
              Scenario.identity theta phi rho) = inr e).
  { apply Forall_forall.
    change (@perturbed _ Scenario.differentiable_LieVector [0; 0; -1]%float)
      with (Scenario.around Scenario.LieVector_retract 3 [0; 0; -1]%float).
    cbv [Scenario.around flat_map seq app].
    repeat (constructor;
            [ eexists _, _, _, tt; repeat split;
              (vm_compute; reflexivity) | ]).
    constructor. }
  split; [split; [reflexivity | exact Hbehind] | ].
  destruct (jacobian_in_degenerate_region (C := Scenario.collaborators)
              (DL := Scenario.differentiable_LieVector)) as [Ha _].
  rewrite (Ha Scenario.factor3a Scenario.identity [0; 0; -1]%float
             (mkCal3_S2 1 1 0 0 0) Scenario.machine eq_refl Hbehind).
  vm_compute. reflexivity.
Defined.

(** ** Edge behaviour of the factor shell *)

Section ShellEdges.
Context `{C : Collaborators}.

Ltac run_equals :=
  simpl; rewrite ?function_return;
  unfold and_then, bind, ret, deref, Base_equals; simpl.

(** X8. [equals] evaluates its conjuncts from left to right and stops at the
    first that fails.  Against a factor of another class it answers false.
    When the identifiers or the measurements differ it answers false
    without dereferencing either calibration pointer, so also when one of
    them is empty; only when both agree are the pointers dereferenced, and
    an empty one then fails the assertion.  In no case does [equals]
    change the machine. *)
Theorem equals_short_circuits :
  (forall (this : InvDepthFactorVariant3a.This) p tol m,
      (InvDepthFactorVariant3a.dynamic_cast p = None ->
       InvDepthFactorVariant3a.equals this p tol m = (Ok false, m))
      /\ snd (InvDepthFactorVariant3a.equals this p tol m) = m)
  /\ (forall (this e : InvDepthFactorVariant3a.This) tol m,
      (NoiseModelFactor2.keys (base this) <> NoiseModelFactor2.keys (base e)
       \/ Point2_equals (measured_ this) (measured_ e) tol = false ->
       InvDepthFactorVariant3a.equals this (Variant3a e) tol m = (Ok false, m))
      /\ (NoiseModelFactor2.keys (base this) = NoiseModelFactor2.keys (base e) ->
          Point2_equals (measured_ this) (measured_ e) tol = true ->
          calibrations m !! K_ this = None \/ calibrations m !! K_ e = None ->
          InvDepthFactorVariant3a.equals this (Variant3a e) tol m = (Abort, m)))
  /\ (forall (this : InvDepthFactorVariant3b.This) p tol m,
      (InvDepthFactorVariant3b.dynamic_cast p = None ->
       InvDepthFactorVariant3b.equals this p tol m = (Ok false, m))
      /\ snd (InvDepthFactorVariant3b.equals this p tol m) = m)
  /\ (forall (this e : InvDepthFactorVariant3b.This) tol m,
      (NoiseModelFactor3.keys (base this) <> NoiseModelFactor3.keys (base e)
       \/ Point2_equals (measured_ this) (measured_ e) tol = false ->
       InvDepthFactorVariant3b.equals this (Variant3b e) tol m = (Ok false, m))
      /\ (NoiseModelFactor3.keys (base this) = NoiseModelFactor3.keys (base e) ->
          Point2_equals (measured_ this) (measured_ e) tol = true ->
          calibrations m !! K_ this = None \/ calibrations m !! K_ e = None ->
          InvDepthFactorVariant3b.equals this (Variant3b e) tol m = (Abort, m))).
Proof.
  split; [ | split; [ | split]].
  - intros this p tol m. split.
    + unfold InvDepthFactorVariant3a.equals. intros ->. reflexivity.
    + unfold InvDepthFactorVariant3a.equals.
      destruct p as [e | e | ks]; try reflexivity. run_equals.
      case_bool_decide; [ | reflexivity].
      destruct (Point2_equals _ _ _); [ | reflexivity].
      repeat match goal with
             | |- context [calibrations m !! ?k] =>
                 destruct (calibrations m !! k); simpl
             end; reflexivity.
  - intros this e tol m. unfold InvDepthFactorVariant3a.equals. split.
    + intros [Hk | Hp]; run_equals.
      * rewrite bool_decide_false by exact Hk. reflexivity.
      * rewrite Hp. case_bool_decide; reflexivity.
    + intros Hk Hp HK. run_equals.
      rewrite bool_decide_true by exact Hk. rewrite Hp.
      destruct HK as [HK | HK].
      * rewrite HK. reflexivity.
      * destruct (calibrations m !! K_ this); [simpl; rewrite HK | ];
          reflexivity.
  - intros this p tol m. split.
    + unfold InvDepthFactorVariant3b.equals. intros ->. reflexivity.
    + unfold InvDepthFactorVariant3b.equals.
      destruct p as [e | e | ks]; try reflexivity. run_equals.
      case_bool_decide; [ | reflexivity].
      destruct (Point2_equals _ _ _); [ | reflexivity].
      repeat match goal with
             | |- context [calibrations m !! ?k] =>
                 destruct (calibrations m !! k); simpl
             end; reflexivity.
  - intros this e tol m. unfold InvDepthFactorVariant3b.equals. split.
    + intros [Hk | Hp]; run_equals.
      * rewrite bool_decide_false by exact Hk. reflexivity.
      * rewrite Hp. case_bool_decide; reflexivity.
    + intros Hk Hp HK. run_equals.
      rewrite bool_decide_true by exact Hk. rewrite Hp.
      destruct HK as [HK | HK].
      * rewrite HK. reflexivity.
      * destruct (calibrations m !! K_ this); [simpl; rewrite HK | ];
          reflexivity.
Qed.

(** X9. [equals] is symmetric wherever the comparisons of [Point2] and
    [Cal3_S2] it relies on are: exchanging the two factors gives the same
    answer, and the same failure when a calibration pointer is empty. *)
Theorem equals_symmetric :
  (forall (a b : InvDepthFactorVariant3a.This) tol m,
      Point2_equals (measured_ a) (measured_ b) tol
      = Point2_equals (measured_ b) (measured_ a) tol ->
      (forall Ka Kb,
          calibrations m !! K_ a = Some Ka ->
          calibrations m !! K_ b = Some Kb ->
          Cal3_S2_equals Ka Kb tol = Cal3_S2_equals Kb Ka tol) ->
      InvDepthFactorVariant3a.equals a (Variant3a b) tol m
      = InvDepthFactorVariant3a.equals b (Variant3a a) tol m)
  /\ (forall (a b : InvDepthFactorVariant3b.This) tol m,
      Point2_equals (measured_ a) (measured_ b) tol
      = Point2_equals (measured_ b) (measured_ a) tol ->
      (forall Ka Kb,
          calibrations m !! K_ a = Some Ka ->
          calibrations m !! K_ b = Some Kb ->
          Cal3_S2_equals Ka Kb tol = Cal3_S2_equals Kb Ka tol) ->
      InvDepthFactorVariant3b.equals a (Variant3b b) tol m
      = InvDepthFactorVariant3b.equals b (Variant3b a) tol m).
Proof.
  split.
  - intros a b tol m Hp Hc. unfold InvDepthFactorVariant3a.equals. run_equals.
    rewrite <- Hp.
    destruct (decide (NoiseModelFactor2.keys (base a)
                      = NoiseModelFactor2.keys (base b))) as [Hk | Hk].
    2: { rewrite !bool_decide_false
           by first [exact Hk | intros Heq; apply Hk; symmetry; exact Heq].
         reflexivity. }
    rewrite !bool_decide_true by first [exact Hk | symmetry; exact Hk].
    destruct (Point2_equals _ _ _); [ | reflexivity].
    destruct (calibrations m !! K_ a) as [Ka | ] eqn:HKa,
             (calibrations m !! K_ b) as [Kb | ] eqn:HKb;
      simpl; rewrite ?HKa, ?HKb; simpl; rewrite ?HKa, ?HKb; try reflexivity.
    rewrite (Hc Ka Kb eq_refl eq_refl). reflexivity.
  - intros a b tol m Hp Hc. unfold InvDepthFactorVariant3b.equals. run_equals.
    rewrite <- Hp.
    destruct (decide (NoiseModelFactor3.keys (base a)
                      = NoiseModelFactor3.keys (base b))) as [Hk | Hk].
    2: { rewrite !bool_decide_false
           by first [exact Hk | intros Heq; apply Hk; symmetry; exact Heq].
         reflexivity. }
    rewrite !bool_decide_true by first [exact Hk | symmetry; exact Hk].
    destruct (Point2_equals _ _ _); [ | reflexivity].
    destruct (calibrations m !! K_ a) as [Ka | ] eqn:HKa,
             (calibrations m !! K_ b) as [Kb | ] eqn:HKb;
      simpl; rewrite ?HKa, ?HKb; simpl; rewrite ?HKa, ?HKb; try reflexivity.
    rewrite (Hc Ka Kb eq_refl eq_refl). reflexivity.
Qed.

End ShellEdges.

(** A factor bound to other variables and holding an empty calibration
    pointer: the comparison stops at the identifiers. *)
Lemma equals_short_circuits_witness :
  let dangling :=
    InvDepthFactorVariant3a.constructor (C := Scenario.collaborators)
      7%N 9%N (mkPoint2 0 0) 5%nat None in
  (calibrations Scenario.machine !! K_ dangling = None
   /\ NoiseModelFactor2.keys (base Scenario.factor3a)
      <> NoiseModelFactor2.keys (base dangling))
  /\ InvDepthFactorVariant3a.equals (C := Scenario.collaborators)
       Scenario.factor3a (Variant3a dangling) 0x1p-30%float Scenario.machine
     = (Ok false, Scenario.machine).
Proof.
  intros dangling.
  assert (Hk : NoiseModelFactor2.keys (base Scenario.factor3a)
               <> NoiseModelFactor2.keys (base dangling)) by discriminate.
  split; [split; [reflexivity | exact Hk] | ].
  destruct (equals_short_circuits (C := Scenario.collaborators))
    as (_ & Ha & _).
  destruct (Ha Scenario.factor3a dangling 0x1p-30%float Scenario.machine)
    as [Hfalse _].
  exact (Hfalse (or_introl Hk)).
Defined.

(** The scenario factor against one with a measurement a pixel away. *)
Lemma equals_symmetric_witness :
  let shifted :=
    InvDepthFactorVariant3a.constructor (C := Scenario.collaborators)
      1%N 2%N (mkPoint2 1 0) 0%nat None in
  Scenario.Point2_equals (measured_ Scenario.factor3a) (measured_ shifted)
    0x1p-30%float
  = Scenario.Point2_equals (measured_ shifted) (measured_ Scenario.factor3a)
      0x1p-30%float
  /\ InvDepthFactorVariant3a.equals (C := Scenario.collaborators)
       Scenario.factor3a (Variant3a shifted) 0x1p-30%float Scenario.machine
     = InvDepthFactorVariant3a.equals (C := Scenario.collaborators)
         shifted (Variant3a Scenario.factor3a) 0x1p-30%float Scenario.machine.
Proof.
  intros shifted. split; [vm_compute; reflexivity | ].
  destruct (equals_symmetric (C := Scenario.collaborators)) as [Ha _].
  apply (Ha Scenario.factor3a shifted 0x1p-30%float Scenario.machine).
  - vm_compute. reflexivity.
  - intros Ka Kb HKa HKb.
    assert (Ka = mkCal3_S2 1 1 0 0 0) as -> by (vm_compute in HKa; congruence).
    assert (Kb = mkCal3_S2 1 1 0 0 0) as -> by (vm_compute in HKb; congruence).
    reflexivity.
Defined.

Section ConstructionEdges.
Context `{C : Collaborators}.

(** X10. Each default construction allocates a calibration of its own: two
    factors default-constructed one after the other, of the same or of
    different variants, point to distinct calibration objects, and both
    objects hold the placeholder intrinsics afterwards. *)
Theorem default_constructions_do_not_share :
  (forall m,
      exists (a b : InvDepthFactorVariant3a.This) m1 m2,
        InvDepthFactorVariant3a.default_constructor m = (Ok a, m1)
        /\ InvDepthFactorVariant3a.default_constructor m1 = (Ok b, m2)
        /\ K_ a <> K_ b
        /\ calibrations m2 !! K_ a = Some (mkCal3_S2 444 555 666 777 888)
        /\ calibrations m2 !! K_ b = Some (mkCal3_S2 444 555 666 777 888))
  /\ (forall m,
      exists (a : InvDepthFactorVariant3a.This)
             (b : InvDepthFactorVariant3b.This) m1 m2,
        InvDepthFactorVariant3a.default_constructor m = (Ok a, m1)
        /\ InvDepthFactorVariant3b.default_constructor m1 = (Ok b, m2)
        /\ K_ a <> K_ b
        /\ calibrations m2 !! K_ a = Some (mkCal3_S2 444 555 666 777 888)
        /\ calibrations m2 !! K_ b = Some (mkCal3_S2 444 555 666 777 888)).
Proof.
  assert (Hfresh : forall (M : gmap loc Cal3_S2) K,
             fresh (dom (<[fresh (dom M) := K]> M)) <> fresh (dom M)).
  { intros M K Heq.
    apply (is_fresh (dom (<[fresh (dom M) := K]> M))).
    rewrite Heq. apply elem_of_dom. rewrite lookup_insert_eq. eauto. }
  split; intros m; eexists _, _, _, _;
    (split; [reflexivity | split; [reflexivity | simpl]]);
    (split; [intros Heq; symmetry in Heq; revert Heq; apply Hfresh | split]).
  all: try apply lookup_insert_eq.
  all: rewrite lookup_insert_ne by apply Hfresh; apply lookup_insert_eq.
Qed.

End ConstructionEdges.

Section Printing.
Context `{C : Collaborators}.
Context {P : Printers}.

(** [print] shows the base part and the measurement, the latter under
    the label [s.z], and nothing of the calibration: it never dereferences
    [K_], so it returns on every factor and machine, changes nothing but
    [std::cout], and two factors that differ only in their calibration
    pointer print the same text. *)
Lemma print_shows_base_and_measurement_only :
  (forall (this : InvDepthFactorVariant3a.This) s keyFormatter m,
      InvDepthFactorVariant3a.print this s keyFormatter m
      = (Ok tt,
         printed (printed m (NoiseModelFactor2_print (base this) s keyFormatter))
                 (Point2_print (measured_ this) (s +:+ ".z"))))
  /\ (forall (b : InvDepthFactorVariant3a.Base) z K K' s keyFormatter m,
      InvDepthFactorVariant3a.print (mkFactor b z K) s keyFormatter m
      = InvDepthFactorVariant3a.print (mkFactor b z K') s keyFormatter m)
  /\ (forall (this : InvDepthFactorVariant3b.This) s keyFormatter m,
      InvDepthFactorVariant3b.print this s keyFormatter m
      = (Ok tt,
         printed (printed m (NoiseModelFactor3_print (base this) s keyFormatter))
                 (Point2_print (measured_ this) (s +:+ ".z"))))
  /\ (forall (b : InvDepthFactorVariant3b.Base) z K K' s keyFormatter m,
      InvDepthFactorVariant3b.print (mkFactor b z K) s keyFormatter m
      = InvDepthFactorVariant3b.print (mkFactor b z K') s keyFormatter m).
Proof.
  split; [ | split; [ | split]].
  - reflexivity.
  - reflexivity.
  - reflexivity.
  - reflexivity.
Qed.

End Printing.

(** ** Failure, output and construction, composed *)

Section Composition.
Context `{C : Collaborators}.
Context {DP : Differentiable Pose3} {DL : Differentiable LieVector}.

Lemma inverseDepthError3a_fst_lookup (this : InvDepthFactorVariant3a.This)
    pose landmark m1 m2 :
  calibrations m1 !! K_ this = calibrations m2 !! K_ this ->
  fst (InvDepthFactorVariant3a.inverseDepthError this pose landmark m1)
  = fst (InvDepthFactorVariant3a.inverseDepthError this pose landmark m2).
Proof.
  intros HK. rewrite !inverseDepthError3a_run, HK.
  destruct (landmark !! 0), (landmark !! 1), (landmark !! 2),
    (calibrations m2 !! K_ this);
    solve [reflexivity | apply residual_of_projection_fst].
Qed.

Lemma inverseDepthError3b_fst_lookup (this : InvDepthFactorVariant3b.This)
    pose1 pose2 landmark m1 m2 :
  calibrations m1 !! K_ this = calibrations m2 !! K_ this ->
  fst (InvDepthFactorVariant3b.inverseDepthError this pose1 pose2 landmark m1)
  = fst (InvDepthFactorVariant3b.inverseDepthError this pose1 pose2 landmark m2).
Proof.
  intros HK. rewrite !inverseDepthError3b_run, HK.
  destruct (landmark !! 0), (landmark !! 1), (landmark !! 2),
    (calibrations m2 !! K_ this);
    solve [reflexivity | apply residual_of_projection_fst].
Qed.

Lemma append_assoc (s1 s2 s3 : string) :
  (s1 +:+ s2) +:+ s3 = s1 +:+ (s2 +:+ s3).
Proof.
  induction s1 as [ | c s1 IH]; [reflexivity | ].
  exact (f_equal (String c) IH).
Qed.

Lemma append_empty_r (s : string) : s +:+ "" = s.
Proof.
  induction s as [ | c s IH]; [reflexivity | ].
  exact (f_equal (String c) IH).
Qed.

Lemma extends_cout_refl m : extends_cout m m.
Proof. exists ""%string. symmetry. apply append_empty_r. Qed.

Lemma extends_cout_trans m1 m2 m3 :
  extends_cout m1 m2 -> extends_cout m2 m3 -> extends_cout m1 m3.
Proof.
  intros [s1 H1] [s2 H2]. exists (s1 +:+ s2).
  rewrite H2, H1. apply append_assoc.
Qed.

Lemma extends_cout_bind {A B} (e : Expr A) (k : A -> Expr B) :
  (forall m, extends_cout m (snd (e m))) ->
  (forall a m, extends_cout m (snd (k a m))) ->
  forall m, extends_cout m (snd (bind e k m)).
Proof.
  intros He Hk m. unfold bind. specialize (He m).
  destruct (e m) as [[a | y | ] m1]; simpl in *; try exact He.
  eapply extends_cout_trans; [exact He | apply Hk].
Qed.

Lemma extends_cout_mapE {A B} (f : A -> Expr B) (l : list A) :
  (forall a m, extends_cout m (snd (f a m))) ->
  forall m, extends_cout m (snd (mapE f l m)).
Proof.
  intros Hf. induction l as [ | a l IH]; simpl.
  - intros m. apply extends_cout_refl.
  - apply extends_cout_bind; [apply Hf | intros b].
    apply extends_cout_bind; [exact IH | intros bs m; apply extends_cout_refl].
Qed.

Lemma extends_cout_slot_step {X} `{Differentiable X} (h : X -> Expr Vector)
    (x : X) (slot : option loc) :
  (forall y m, extends_cout m (snd (h y m))) ->
  forall m, extends_cout m (snd (slot_step slot (numericalDerivative11 h x) m)).
Proof.
  intros Hh. destruct slot as [s | ]; simpl;
    [ | intros m; apply extends_cout_refl].
  apply extends_cout_bind;
    [ | intros J m; exists ""%string; symmetry; apply append_empty_r].
  unfold numericalDerivative11.
  apply extends_cout_bind;
    [apply extends_cout_mapE, Hh | intros vs m; apply extends_cout_refl].
Qed.

Lemma extends_cout3a (this : InvDepthFactorVariant3a.This) pose landmark m :
  extends_cout m
    (snd (InvDepthFactorVariant3a.inverseDepthError this pose landmark m)).
Proof.
  rewrite inverseDepthError3a_run.
  destruct (landmark !! 0), (landmark !! 1), (landmark !! 2),
    (calibrations m !! K_ this); try apply extends_cout_refl.
  unfold residual_of_projection.
  destruct (project _ _); [apply extends_cout_refl | eexists; reflexivity].
Qed.

Lemma extends_cout3b (this : InvDepthFactorVariant3b.This) pose1 pose2
    landmark m :
  extends_cout m
    (snd (InvDepthFactorVariant3b.inverseDepthError this pose1 pose2
            landmark m)).
Proof.
  rewrite inverseDepthError3b_run.
  destruct (landmark !! 0), (landmark !! 1), (landmark !! 2),
    (calibrations m !! K_ this); try apply extends_cout_refl.
  unfold residual_of_projection.
  destruct (project _ _); [apply extends_cout_refl | eexists; reflexivity].
Qed.

(** X13. Whatever was on [std::cout] before an evaluation is still there
    after it, followed by the diagnostics of the evaluation: neither
    [inverseDepthError] nor [evaluateError], with any slots and however
    many perturbed evaluations, removes or rewrites output. *)
Theorem evaluation_only_appends_to_cout :
  (forall (this : InvDepthFactorVariant3a.This) pose landmark H1 H2 m,
      extends_cout m
        (snd (InvDepthFactorVariant3a.inverseDepthError this pose landmark m))
      /\ extends_cout m
           (snd (InvDepthFactorVariant3a.evaluateError this pose landmark
                   H1 H2 m)))
  /\ (forall (this : InvDepthFactorVariant3b.This) pose1 pose2 landmark
             H1 H2 H3 m,
      extends_cout m
        (snd (InvDepthFactorVariant3b.inverseDepthError this pose1 pose2
                landmark m))
      /\ extends_cout m
           (snd (InvDepthFactorVariant3b.evaluateError this pose1 pose2
                   landmark H1 H2 H3 m))).
Proof.
  split.
  - intros this pose landmark H1 H2 m. split; [apply extends_cout3a | ].
    rewrite evaluateError3a_run. revert m.
    apply extends_cout_bind;
      [apply extends_cout_slot_step; intros; apply extends_cout3a | intros _].
    apply extends_cout_bind;
      [apply extends_cout_slot_step; intros; apply extends_cout3a | intros _].
    apply extends_cout3a.
  - intros this pose1 pose2 landmark H1 H2 H3 m.
    split; [apply extends_cout3b | ].
    rewrite evaluateError3b_run. revert m.
    apply extends_cout_bind;
      [apply extends_cout_slot_step; intros; apply extends_cout3b | intros _].
    apply extends_cout_bind;
      [apply extends_cout_slot_step; intros; apply extends_cout3b | intros _].
    apply extends_cout_bind;
      [apply extends_cout_slot_step; intros; apply extends_cout3b | intros _].
    apply extends_cout3b.
Qed.

(** X14. Default-constructing a factor, of either variant, does not disturb
    the factors that exist: a factor whose calibration pointer is valid
    returns the same residual after the construction as before it. *)
Theorem construction_leaves_existing_factors_alone :
  (forall (this : InvDepthFactorVariant3a.This) pose landmark m,
      is_Some (calibrations m !! K_ this) ->
      fst (InvDepthFactorVariant3a.inverseDepthError this pose landmark
             (snd (InvDepthFactorVariant3a.default_constructor m)))
      = fst (InvDepthFactorVariant3a.inverseDepthError this pose landmark m)
      /\ fst (InvDepthFactorVariant3a.inverseDepthError this pose landmark
                (snd (InvDepthFactorVariant3b.default_constructor m)))
         = fst (InvDepthFactorVariant3a.inverseDepthError this pose landmark m))
  /\ (forall (this : InvDepthFactorVariant3b.This) pose1 pose2 landmark m,
      is_Some (calibrations m !! K_ this) ->
      fst (InvDepthFactorVariant3b.inverseDepthError this pose1 pose2 landmark
             (snd (InvDepthFactorVariant3a.default_constructor m)))
      = fst (InvDepthFactorVariant3b.inverseDepthError this pose1 pose2
               landmark m)
      /\ fst (InvDepthFactorVariant3b.inverseDepthError this pose1 pose2
                landmark (snd (InvDepthFactorVariant3b.default_constructor m)))
         = fst (InvDepthFactorVariant3b.inverseDepthError this pose1 pose2
                  landmark m)).
Proof.
  assert (Hkeep : forall (m : Machine) (l : loc) K,
             is_Some (calibrations m !! l) ->
             <[fresh (dom (calibrations m)) := K]> (calibrations m) !! l
             = calibrations m !! l).
  { intros m l K Hl. apply lookup_insert_ne. intros <-.
    apply (is_fresh (dom (calibrations m))), elem_of_dom, Hl. }
  split.
  - intros this pose landmark m HK.
    split; apply inverseDepthError3a_fst_lookup; simpl; apply Hkeep, HK.
  - intros this pose1 pose2 landmark m HK.
    split; apply inverseDepthError3b_fst_lookup; simpl; apply Hkeep, HK.
Qed.

End Composition.

(** The scenario factor, before and after another factor has been
    default-constructed in its store. *)
Lemma construction_leaves_existing_factors_alone_witness :
  is_Some (calibrations Scenario.machine !! K_ Scenario.factor3a)
  /\ fst (InvDepthFactorVariant3a.inverseDepthError
            (C := Scenario.collaborators) Scenario.factor3a Scenario.identity
            [0; 0; 1]%float
            (snd (InvDepthFactorVariant3b.default_constructor
                    (C := Scenario.collaborators) Scenario.machine)))
     = fst (InvDepthFactorVariant3a.inverseDepthError
              (C := Scenario.collaborators) Scenario.factor3a Scenario.identity
              [0; 0; 1]%float Scenario.machine).
Proof.
  assert (HK : is_Some (calibrations Scenario.machine !! K_ Scenario.factor3a))
    by (eexists; reflexivity).
  split; [exact HK | ].
  destruct (construction_leaves_existing_factors_alone
              (C := Scenario.collaborators)) as [Ha _].
  destruct (Ha Scenario.factor3a Scenario.identity [0; 0; 1]%float
              Scenario.machine HK) as [_ Hb].
  exact Hb.
Defined.

Section DefaultCalibration.
Context `{C : Collaborators}.

(** X11. Section 7, construction with unset calibration: a
    default-constructed factor is evaluated with the placeholder
    intrinsics.  Whenever the camera built from the pose and
    [Cal3_S2(444, 555, 666, 777, 888)] projects the landmark's world point
    to [p], evaluating the freshly constructed factor returns [p] minus
    its default measurement and leaves the machine as the constructor
    left it. *)
Theorem default_constructed_factor_uses_placeholder :
  (forall m pose landmark theta phi rho p,
      landmark !! 0 = Some theta -> landmark !! 1 = Some phi ->
      landmark !! 2 = Some rho ->
      project (mkPinholeCamera pose (mkCal3_S2 444 555 666 777 888))
              (coordinate_transform pose theta phi rho) = inl p ->
      exists (this : InvDepthFactorVariant3a.This) m1,
        InvDepthFactorVariant3a.default_constructor m = (Ok this, m1)
        /\ InvDepthFactorVariant3a.inverseDepthError this pose landmark m1
           = (Ok (residual p Point2_default), m1))
  /\ (forall m pose1 pose2 landmark theta phi rho p,
      landmark !! 0 = Some theta -> landmark !! 1 = Some phi ->
      landmark !! 2 = Some rho ->
      project (mkPinholeCamera pose2 (mkCal3_S2 444 555 666 777 888))
              (coordinate_transform pose1 theta phi rho) = inl p ->
      exists (this : InvDepthFactorVariant3b.This) m1,
        InvDepthFactorVariant3b.default_constructor m = (Ok this, m1)
        /\ InvDepthFactorVariant3b.inverseDepthError this pose1 pose2
             landmark m1
           = (Ok (residual p Point2_default), m1)).
Proof.
  split.
  - intros m pose landmark theta phi rho p H0 H1 H2 Hp.
    eexists _, _. split; [reflexivity | ].
    rewrite inverseDepthError3a_run, H0, H1, H2. simpl.
    rewrite lookup_insert_eq, Hp. reflexivity.
  - intros m pose1 pose2 landmark theta phi rho p H0 H1 H2 Hp.
    eexists _, _. split; [reflexivity | ].
    rewrite inverseDepthError3b_run, H0, H1, H2. simpl.
    rewrite lookup_insert_eq, Hp. reflexivity.
Qed.

End DefaultCalibration.

(** A factor default-constructed in the scenario store and evaluated on
    the landmark (0, 0, 1) at the identity pose: the image point is the
    placeholder principal point (777, 888). *)
Lemma default_constructed_factor_uses_placeholder_witness :
  Scenario.project
    (mkPinholeCamera Scenario.identity (mkCal3_S2 444 555 666 777 888))
    (coordinate_transform (C := Scenario.collaborators)
       Scenario.identity 0 0 1)
  = inl (mkPoint2 777 888)
  /\ exists (this : InvDepthFactorVariant3a.This (C := Scenario.collaborators))
            m1,
       InvDepthFactorVariant3a.default_constructor Scenario.machine
       = (Ok this, m1)
       /\ InvDepthFactorVariant3a.inverseDepthError this Scenario.identity
            [0; 0; 1]%float m1 = (Ok [777; 888]%float, m1).
Proof.
  assert (Hp : Scenario.project
                 (mkPinholeCamera Scenario.identity
                    (mkCal3_S2 444 555 666 777 888))
                 (coordinate_transform (C := Scenario.collaborators)
                    Scenario.identity 0 0 1)
               = inl (mkPoint2 777 888)) by (vm_compute; reflexivity).
  split; [exact Hp | ].
  destruct (default_constructed_factor_uses_placeholder
              (C := Scenario.collaborators)) as [Ha _].
  exact (Ha Scenario.machine Scenario.identity [0; 0; 1]%float
           0%float 0%float 1%float (mkPoint2 777 888)
           eq_refl eq_refl eq_refl Hp).
Defined.
